(** * ChargePoint to MQTT monitor: a shallow embedding of [monitor.py]

    The monitor polls one ChargePoint home charger, maps the reply to a pair
    (connected, power in watts) and republishes it on two retained MQTT
    topics.  The embedding follows the source method by method:

    - [Py]      the fragment of the Python runtime the monitor relies on
                (values, truthiness, [float()], [str()], [int()], [upper()],
                exceptions);
    - [Sys]     the outside world (ChargePoint session, MQTT client, sleep,
                signals) as an oracle over the history of calls, and the
                state/exception monad the methods run in;
    - [Monitor] the class [ChargePointMQTTMonitor] and [main]. *)

From Stdlib Require Import ZArith List String Ascii Bool Lia SpecFloat.
Import ListNotations.
Set Warnings "-register-all".
Open Scope string_scope.
Open Scope Z_scope.

(* ================================================================== *)
(** * The Python fragment *)
(* ================================================================== *)

Module Py.

(** ** Floats: IEEE 754 binary64, as CPython's [float] *)

Definition float := spec_float.
Definition prec : Z := 53.
Definition emax : Z := 1024.

Definition fmul : float -> float -> float := SFmul prec emax.
Definition fleb : float -> float -> bool := SFleb.
Definition feqb : float -> float -> bool := SFeqb.

Definition fzero : float := S754_zero false.
Definition fone : float := S754_finite false 4503599627370496 (-52).
(** [1000.0] is 1000 * 2^43 * 2^-43 *)
Definition f1000 : float := S754_finite false 8796093022208000 (-43).

Definition is_finite (f : float) : bool :=
  match f with
  | S754_zero _ | S754_finite _ _ _ => true
  | _ => false
  end.

Definition is_nan (f : float) : bool :=
  match f with S754_nan => true | _ => false end.

(** The nearest binary64 to the integer [z] (ties to even); an infinity
    when [z] is out of range. *)
Definition round_Z (z : Z) : float := binary_normalize prec emax z 0 false.

(** The nearest binary64 to [(-1)^s * n / d] for [n >= 0], [d > 0]. *)
Definition round_ratio (s : bool) (n d : Z) : float :=
  match n with
  | Z0 => S754_zero s
  | _ =>
    let '(q, e, l) := SFdiv_core_binary prec emax n 0 d 0 in
    binary_round_aux prec emax s q e l
  end.

(** The nearest binary64 to [(-1)^s * m * 10^e10], [m >= 0]: what C's
    [strtod] (and so [float(str)]) computes from a decimal literal. *)
Definition round_decimal (s : bool) (m e10 : Z) : float :=
  match m with
  | Z0 => S754_zero s
  | _ =>
    if 0 <=? e10
    then match m * 10 ^ e10 with
         | Zpos p => binary_round prec emax s p 0
         | _ => S754_zero s
         end
    else round_ratio s m (10 ^ (- e10))
  end.

(** ** Text

    [str] values are modelled as ASCII text.  [upper] is [str.upper()]:
    it maps [a-z] to [A-Z] and leaves every other character alone. *)

Definition is_lower (c : ascii) : bool :=
  let n := nat_of_ascii c in (Nat.leb 97 n && Nat.leb n 122)%bool.
Definition is_upper (c : ascii) : bool :=
  let n := nat_of_ascii c in (Nat.leb 65 n && Nat.leb n 90)%bool.
Definition is_digit (c : ascii) : bool :=
  let n := nat_of_ascii c in (Nat.leb 48 n && Nat.leb n 57)%bool.

Definition upper_char (c : ascii) : ascii :=
  if is_lower c then ascii_of_nat (nat_of_ascii c - 32) else c.
Definition lower_char (c : ascii) : ascii :=
  if is_upper c then ascii_of_nat (nat_of_ascii c + 32) else c.

Fixpoint upper (s : string) : string :=
  match s with
  | EmptyString => EmptyString
  | String c r => String (upper_char c) (upper r)
  end.

Fixpoint lower (s : string) : string :=
  match s with
  | EmptyString => EmptyString
  | String c r => String (lower_char c) (lower r)
  end.

(** Whitespace as [float(str)] and [int(str)] strip it. *)
Definition is_space (c : ascii) : bool :=
  let n := nat_of_ascii c in
  ((Nat.leb 9 n && Nat.leb n 13) || Nat.eqb n 32)%bool.

Fixpoint lstrip (s : list ascii) : list ascii :=
  match s with
  | c :: r => if is_space c then lstrip r else s
  | [] => []
  end.
Definition strip (s : list ascii) : list ascii :=
  rev (lstrip (rev (lstrip s))).

(** Single underscores are accepted between two digits and dropped; any
    other underscore makes the literal invalid. *)
Fixpoint drop_underscores (prev : ascii) (s : list ascii) : option (list ascii) :=
  match s with
  | [] => Some []
  | c :: r =>
    if Ascii.eqb c "_"
    then match r with
         | d :: _ => if (is_digit prev && is_digit d)%bool
                     then drop_underscores c r else None
         | [] => None
         end
    else option_map (cons c) (drop_underscores c r)
  end.

Definition digit_val (c : ascii) : Z := Z.of_nat (nat_of_ascii c) - 48.

(** Reads a maximal run of digits: its value (continuing [acc]), its
    length, and the rest of the input. *)
Fixpoint read_digits (s : list ascii) (acc : Z) (n : Z) : Z * Z * list ascii :=
  match s with
  | c :: r => if is_digit c then read_digits r (10 * acc + digit_val c) (n + 1)
              else (acc, n, s)
  | [] => (acc, n, [])
  end.

Definition read_sign (s : list ascii) : bool * list ascii :=
  match s with
  | c :: r => if Ascii.eqb c "-" then (true, r)
              else if Ascii.eqb c "+" then (false, r) else (false, s)
  | [] => (false, [])
  end.

(** [int(s)] in base 10; [None] is [ValueError]. *)
Definition int_of_string (s : string) : option Z :=
  match drop_underscores " " (strip (list_ascii_of_string s)) with
  | None => None
  | Some body =>
    let '(neg, r) := read_sign body in
    let '(v, n, rest) := read_digits r 0 0 in
    match rest with
    | [] => if 0 <? n then Some (if neg then - v else v) else None
    | _ => None
    end
  end.

(** The exponent part of a decimal literal: [e] or [E], an optional sign
    and at least one digit. *)
Definition read_exponent (s : list ascii) : option Z :=
  match s with
  | [] => Some 0
  | c :: r =>
    if (Ascii.eqb c "e" || Ascii.eqb c "E")%bool
    then let '(neg, r') := read_sign r in
         let '(v, n, rest) := read_digits r' 0 0 in
         match rest with
         | [] => if 0 <? n then Some (if neg then - v else v) else None
         | _ => None
         end
    else None
  end.

(** [float(s)]; [None] is [ValueError]. *)
Definition float_of_string (s : string) : option float :=
  match drop_underscores " " (strip (list_ascii_of_string s)) with
  | None => None
  | Some body =>
    let '(neg, r) := read_sign body in
    let word := lower (string_of_list_ascii r) in
    if (String.eqb word "inf" || String.eqb word "infinity")%bool
    then Some (S754_infinity neg)
    else if String.eqb word "nan" then Some S754_nan
    else
      let '(ip, ni, r1) := read_digits r 0 0 in
      let '(m, nf, r2) :=
        match r1 with
        | c :: r1' => if Ascii.eqb c "." then read_digits r1' ip 0
                      else (ip, 0, r1)
        | [] => (ip, 0, [])
        end in
      if 0 <? ni + nf
      then match read_exponent r2 with
           | Some e => Some (round_decimal neg m (e - nf))
           | None => None
           end
      else None
  end.

(** ** Printing: [str(int)] and [str(float)] *)

Definition digit_char (d : Z) : ascii := ascii_of_nat (Z.to_nat d + 48).

Fixpoint digits_fuel (fuel : nat) (z : Z) (acc : string) : string :=
  let acc' := String (digit_char (z mod 10)) acc in
  match fuel with
  | O => acc'
  | S f => if z <? 10 then acc' else digits_fuel f (z / 10) acc'
  end.

(** The decimal digits of [z >= 0]. *)
Definition digits (z : Z) : string :=
  digits_fuel (Z.to_nat (Z.log2 z)) z EmptyString.

(** [str(z)] for an [int]. *)
Definition str_of_int (z : Z) : string :=
  if z <? 0 then String "-" (digits (- z)) else digits z.

(** [str(f)] for a [float] is [repr(f)]: the shortest decimal literal that
    reads back as [f] (the closest to [f] among the shortest), printed
    in positional notation with a fractional part, or in exponent notation
    when the decimal point would fall before 1e-4 or at 1e16 and after. *)

(** Smallest [j >= 1] with [n * 10^j >= d], searched upwards from [j]. *)
Fixpoint first_scale (fuel : nat) (n d j : Z) : Z :=
  match fuel with
  | O => j
  | S f => if d <=? n * 10 ^ j then j else first_scale f n d (j + 1)
  end.

(** The decimal exponent [k] of [n/d > 0]: [10^(k-1) <= n/d < 10^k]. *)
Definition decimal_exponent (n d : Z) : Z :=
  if d <=? n
  then Z.of_nat (String.length (digits (n / d)))
  else 1 - first_scale 400 n d 1.

(** The candidates with [p] significant digits around [n/d], as integers
    [c] standing for [c * 10^(k-p)], the closest first. *)
Definition candidates (n d k p : Z) : list Z :=
  let num := if 0 <=? p - k then n * 10 ^ (p - k) else n in
  let den := if 0 <=? p - k then d else d * 10 ^ (k - p) in
  let lo := num / den in
  let r := num mod den in
  if r =? 0 then [lo]
  else match 2 * r ?= den with
       | Lt => [lo; lo + 1]
       | Gt => [lo + 1; lo]
       | Eq => if Z.even lo then [lo; lo + 1] else [lo + 1; lo]
       end.

Definition reads_back (x : float) (k p c : Z) : bool :=
  match x, round_decimal false c (k - p) with
  | S754_finite _ m e, S754_finite _ m' e' => (Pos.eqb m m' && (e =? e'))%bool
  | _, _ => false
  end.

(** The shortest digits, from [p] significant digits on. *)
Fixpoint shortest (fuel : nat) (x : float) (n d k p : Z) : Z * Z :=
  match fuel with
  | O => (0, 0)
  | S f =>
    match filter (reads_back x k p) (candidates n d k p) with
    | c :: _ => (c, k - p)
    | [] => shortest f x n d k (p + 1)
    end
  end.

Fixpoint strip_zeros (fuel : nat) (c e : Z) : Z * Z :=
  match fuel with
  | O => (c, e)
  | S f => if (c mod 10 =? 0) && negb (c =? 0)
           then strip_zeros f (c / 10) (e + 1) else (c, e)
  end%bool.

Fixpoint zeros (n : nat) : string :=
  match n with O => EmptyString | S k => String "0" (zeros k) end.

Definition substring_from (n : nat) (s : string) : string :=
  String.substring n (String.length s - n) s.

(** Lay out the digits [ds] of a value [0.ds * 10^decpt]. *)
Definition layout (ds : string) (decpt : Z) : string :=
  let nd := Z.of_nat (String.length ds) in
  if ((decpt <=? -4) || (16 <? decpt))%bool
  then
    let e := decpt - 1 in
    let mant := match ds with
                | String c EmptyString => ds
                | String c r => String c (String "." r)
                | EmptyString => ds
                end in
    let es := digits (Z.abs e) in
    let es := if Z.abs e <? 10 then String "0" es else es in
    mant ++ "e" ++ (if e <? 0 then "-" else "+") ++ es
  else if decpt <=? 0
  then "0." ++ zeros (Z.to_nat (- decpt)) ++ ds
  else if nd <=? decpt
  then ds ++ zeros (Z.to_nat (decpt - nd)) ++ ".0"
  else String.substring 0 (Z.to_nat decpt) ds ++ "." ++
       substring_from (Z.to_nat decpt) ds.

Definition str_of_float (f : float) : string :=
  match f with
  | S754_nan => "nan"
  | S754_infinity s => if s then "-inf" else "inf"
  | S754_zero s => if s then "-0.0" else "0.0"
  | S754_finite s m e =>
    let n := if 0 <=? e then Zpos m * 2 ^ e else Zpos m in
    let d := if 0 <=? e then 1 else 2 ^ (- e) in
    let k := decimal_exponent n d in
    let '(c, e10) := strip_zeros 20 (fst (shortest 17 f n d k 1))
                                    (snd (shortest 17 f n d k 1)) in
    let ds := digits c in
    (if s then "-" else EmptyString) ++ layout ds (Z.of_nat (String.length ds) + e10)
  end.

(** ** Values

    The objects the libraries hand to the monitor: what a decoded JSON
    document is made of. *)

Inductive pyval :=
| PyNone
| PyBool (b : bool)
| PyInt (z : Z)
| PyFloat (f : float)
| PyStr (s : string)
| PyList (l : list pyval)
| PyDict (d : list (string * pyval)).

(** ** Exceptions

    [Error mro msg] is an instance of a class deriving from [Exception]:
    [mro] names the class and its ancestors below [Exception], [msg] is
    its text.  [KeyboardInterrupt] and [SystemExit] derive from
    [BaseException] only, so [except Exception] lets them through. *)

Inductive exn :=
| Error (mro : list string) (msg : string)
| KeyboardInterrupt
| SystemExit (code : Z).

Inductive res (A : Type) :=
| Val (a : A)
| Exc (e : exn).
Arguments Val {A} a.
Arguments Exc {A} e.

Definition is_Exception (e : exn) : bool :=
  match e with Error _ _ => true | _ => false end.

(** [isinstance(e, (c1, ..., cn))] for classes below [Exception]. *)
Definition isinstance (e : exn) (classes : list string) : bool :=
  match e with
  | Error mro _ => existsb (fun c => existsb (String.eqb c) mro) classes
  | _ => false
  end.

Definition AttributeError (msg : string) : exn := Error ["AttributeError"] msg.
Definition TypeError (msg : string) : exn := Error ["TypeError"] msg.
Definition ValueError (msg : string) : exn := Error ["ValueError"] msg.
Definition KeyError (msg : string) : exn := Error ["KeyError"; "LookupError"] msg.
Definition IndexError (msg : string) : exn := Error ["IndexError"; "LookupError"] msg.
Definition OverflowError (msg : string) : exn :=
  Error ["OverflowError"; "ArithmeticError"] msg.

(** ** Operations *)

(** [bool(v)] *)
Definition truthy (v : pyval) : bool :=
  match v with
  | PyNone => false
  | PyBool b => b
  | PyInt z => negb (z =? 0)
  | PyFloat f => negb (feqb f fzero)
  | PyStr s => negb (String.eqb s EmptyString)
  | PyList l => match l with [] => false | _ => true end
  | PyDict d => match d with [] => false | _ => true end
  end.

(** [a or b] *)
Definition py_or (a b : pyval) : pyval := if truthy a then a else b.

(** [float(int)]: the nearest float, [OverflowError] out of range. *)
Definition float_of_int (z : Z) : res float :=
  match round_Z z with
  | S754_infinity _ | S754_nan =>
      Exc (OverflowError "int too large to convert to float")
  | f => Val f
  end.

(** [float(v)] *)
Definition py_float (v : pyval) : res float :=
  match v with
  | PyFloat f => Val f
  | PyInt z => float_of_int z
  | PyBool b => Val (if b then fone else fzero)
  | PyStr s => match float_of_string s with
               | Some f => Val f
               | None => Exc (ValueError "could not convert string to float")
               end
  | _ => Exc (TypeError "float() argument must be a string or a real number")
  end.

Fixpoint lookup (k : string) (d : list (string * pyval)) : option pyval :=
  match d with
  | [] => None
  | (k', v) :: r => if String.eqb k k' then Some v else lookup k r
  end.

(** [v.get(key, default)]: only a [dict] has the method. *)
Definition py_get (v : pyval) (key : string) (default : pyval) : res pyval :=
  match v with
  | PyDict d => Val (match lookup key d with Some x => x | None => default end)
  | _ => Exc (AttributeError "object has no attribute 'get'")
  end.

(** [v.upper()]: only a [str] has the method. *)
Definition py_upper (v : pyval) : res string :=
  match v with
  | PyStr s => Val (upper s)
  | _ => Exc (AttributeError "object has no attribute 'upper'")
  end.

(** [v[0]] *)
Definition py_first (v : pyval) : res pyval :=
  match v with
  | PyList (x :: _) => Val x
  | PyList [] => Exc (IndexError "list index out of range")
  | PyStr (String c _) => Val (PyStr (String c EmptyString))
  | PyStr EmptyString => Exc (IndexError "string index out of range")
  | PyDict _ => Exc (KeyError "0")
  | _ => Exc (TypeError "object is not subscriptable")
  end.

(** [s in [c1, ..., cn]] for strings. *)
Definition str_in (s : string) (l : list string) : bool :=
  existsb (String.eqb s) l.

End Py.

(* ================================================================== *)
(** * The outside world *)
(* ================================================================== *)

Module Sys.
Import Py.

(** Every call the monitor makes across its boundary: the ChargePoint
    session, the paho MQTT client, and [time.sleep]. *)
Inductive call :=
| ImportCallbackAPIVersion
| MqttClient (client_id : string) (callback_api_version1 : bool)
| UsernamePwSet (username password : string)
| MqttConnect (host : string) (port keepalive : Z)
| MqttLoopStart
| MqttPublish (topic payload : string) (retain : bool)
| MqttLoopStop
| MqttDisconnect
| ChargePointLogin (username password : option string)
| GetHomeChargers
| GetChargingStatus (device_id : pyval)
| Sleep (seconds : Z).

(** What a call can do: return a value, raise an error (an instance of
    [Exception]), or be cut short by the interrupt signal, which Python
    turns into [KeyboardInterrupt] in the main thread. *)
Inductive response :=
| Returns (v : pyval)
| Raises (mro : list string) (msg : string)
| Interrupted.

Definition event : Type := call * response.

(** The world answers each call knowing everything that happened before. *)
Definition world : Type := list event -> call -> response.

Inductive level := DEBUG | INFO | WARNING | ERROR.

(** The state threaded through the program: the calls made so far with
    their answers, and the log records (level and message as written in
    the source, placeholders unexpanded). *)
Record state := mkState {
  history : list event;
  logs : list (level * string)
}.

Definition start : state := mkState [] [].

(** A computation ends with a value or a raised exception; [None] says the
    driving loop was still running when the observation stopped. *)
Definition M (A : Type) : Type := world -> state -> option (res A) * state.

Definition ret {A} (a : A) : M A := fun _ s => (Some (Val a), s).
Definition raise {A} (e : exn) : M A := fun _ s => (Some (Exc e), s).
Definition unfinished {A} : M A := fun _ s => (None, s).

Definition bind {A B} (m : M A) (k : A -> M B) : M B :=
  fun w s =>
    match m w s with
    | (Some (Val a), s') => k a w s'
    | (Some (Exc e), s') => (Some (Exc e), s')
    | (None, s') => (None, s')
    end.

Declare Scope py_scope.
Delimit Scope py_scope with py.
Notation "x <- m ;; k" := (bind m (fun x => k))
  (at level 61, m at next level, right associativity) : py_scope.
Notation "m ;;; k" := (bind m (fun _ => k))
  (at level 61, right associativity) : py_scope.
Open Scope py_scope.

(** A pure operation that may raise. *)
Definition lift {A} (r : res A) : M A :=
  match r with Val a => ret a | Exc e => raise e end.

Definition answer (r : response) : res pyval :=
  match r with
  | Returns v => Val v
  | Raises mro msg => Exc (Error mro msg)
  | Interrupted => Exc KeyboardInterrupt
  end.

(** Make a call: ask the world, record the event. *)
Definition perform (c : call) : M pyval :=
  fun w s =>
    let r := w (history s) c in
    (Some (answer r), mkState (history s ++ [(c, r)])%list (logs s)).

Definition log (l : level) (msg : string) : M unit :=
  fun _ s => (Some (Val tt), mkState (history s) (logs s ++ [(l, msg)])%list).

(** [try: body / except <classes matched by catches> as e: handler e] *)
Definition try_except {A} (body : M A) (catches : exn -> bool)
                      (handler : exn -> M A) : M A :=
  fun w s =>
    match body w s with
    | (Some (Exc e), s') => if catches e then handler e w s'
                            else (Some (Exc e), s')
    | r => r
    end.

(** [try: body / finally: cleanup] *)
Definition try_finally {A} (body : M A) (cleanup : M unit) : M A :=
  fun w s =>
    match body w s with
    | (Some r, s') =>
      match cleanup w s' with
      | (Some (Val _), s'') => (Some r, s'')
      | (Some (Exc e), s'') => (Some (Exc e), s'')
      | (None, s'') => (None, s'')
      end
    | (None, s') => (None, s')
    end.

(** [while True: body], observed for at most [n] iterations. *)
Fixpoint while_true (n : nat) (body : M unit) : M unit :=
  match n with
  | O => unfinished
  | S k => body ;;; while_true k body
  end.

(** [time.sleep(seconds)] *)
Definition time_sleep (seconds : Z) : M unit :=
  if 9223372036 <? seconds
  then raise (OverflowError "timestamp too large to convert to C _PyTime_t")
  else if seconds <? 0
  then raise (ValueError "sleep length must be non-negative")
  else perform (Sleep seconds) ;;; ret tt.

(** [sys.exit(code)] *)
Definition sys_exit {A} (code : Z) : M A := raise (SystemExit code).

End Sys.

(* ================================================================== *)
(** * The monitor *)
(* ================================================================== *)

Module Monitor.
Import Py Sys.

Definition STATUS_CHARGING : string := "CHARGING".
Definition STATUS_INUSE : string := "INUSE".
Definition STATUS_AVAILABLE : string := "AVAILABLE".

(** The process environment, [os.environ]. *)
Definition environ : Type := string -> option string.

Definition getenv (env : environ) (name : string) : option string := env name.
Definition getenv_default (env : environ) (name default : string) : string :=
  match env name with Some v => v | None => default end.

(** [int(s)] *)
Definition py_int (s : string) : M Z :=
  match int_of_string s with
  | Some z => ret z
  | None => raise (ValueError "invalid literal for int() with base 10")
  end.

(** Truthiness of a [str] that may be [None]. *)
Definition set (o : option string) : bool :=
  match o with
  | Some v => negb (String.eqb v EmptyString)
  | None => false
  end.

(** The attributes of a [ChargePointMQTTMonitor].  [chargepoint] and
    [mqtt_client] are [false] while the attribute is [None]. *)
Record monitor := mkMonitor {
  cp_username : option string;
  cp_password : option string;
  mqtt_broker : string;
  mqtt_port : Z;
  mqtt_username : option string;
  mqtt_password : option string;
  mqtt_client_id : string;
  mqtt_topic_prefix : string;
  mqtt_topic_connected : string;
  mqtt_topic_power : string;
  poll_interval : Z;
  chargepoint : bool;
  mqtt_client : bool
}.

Definition with_mqtt_client (self : monitor) : monitor :=
  mkMonitor (cp_username self) (cp_password self) (mqtt_broker self)
    (mqtt_port self) (mqtt_username self) (mqtt_password self)
    (mqtt_client_id self) (mqtt_topic_prefix self)
    (mqtt_topic_connected self) (mqtt_topic_power self)
    (poll_interval self) (chargepoint self) true.

Definition with_chargepoint (self : monitor) : monitor :=
  mkMonitor (cp_username self) (cp_password self) (mqtt_broker self)
    (mqtt_port self) (mqtt_username self) (mqtt_password self)
    (mqtt_client_id self) (mqtt_topic_prefix self)
    (mqtt_topic_connected self) (mqtt_topic_power self)
    (poll_interval self) true (mqtt_client self).

(** [ChargePointMQTTMonitor.__init__] *)
Definition __init__ (env : environ) : M monitor :=
  let cp_username := getenv env "CHARGEPOINT_USERNAME" in
  let cp_password := getenv env "CHARGEPOINT_PASSWORD" in
  let mqtt_broker := getenv_default env "MQTT_BROKER" "localhost" in
  mqtt_port <- py_int (getenv_default env "MQTT_PORT" "1883") ;;
  let mqtt_username := getenv env "MQTT_USERNAME" in
  let mqtt_password := getenv env "MQTT_PASSWORD" in
  let mqtt_client_id := getenv_default env "MQTT_CLIENT_ID" "chargepoint-mqtt" in
  let mqtt_topic_prefix := getenv_default env "MQTT_TOPIC_PREFIX" "chargepoint" in
  let mqtt_topic_connected :=
    getenv_default env "MQTT_TOPIC_CONNECTED" (mqtt_topic_prefix ++ "/connected") in
  let mqtt_topic_power :=
    getenv_default env "MQTT_TOPIC_POWER" (mqtt_topic_prefix ++ "/power") in
  poll_interval <- py_int (getenv_default env "POLL_INTERVAL" "60") ;;
  (if (negb (set cp_username) || negb (set cp_password))%bool
   then log ERROR "CHARGEPOINT_USERNAME and CHARGEPOINT_PASSWORD must be set" ;;;
        sys_exit 1
   else ret tt) ;;;
  ret (mkMonitor cp_username cp_password mqtt_broker mqtt_port
         mqtt_username mqtt_password mqtt_client_id mqtt_topic_prefix
         mqtt_topic_connected mqtt_topic_power poll_interval false false).

Definition unwrap (o : option string) : string :=
  match o with Some v => v | None => EmptyString end.

(** [setup_mqtt] *)
Definition setup_mqtt (self : monitor) : M monitor :=
  self <- try_except
            (perform ImportCallbackAPIVersion ;;;
             perform (MqttClient (mqtt_client_id self) true) ;;;
             ret (with_mqtt_client self))
            (fun e => isinstance e ["ImportError"; "AttributeError"])
            (fun _ =>
             perform (MqttClient (mqtt_client_id self) false) ;;;
             ret (with_mqtt_client self)) ;;
  (if (set (mqtt_username self) && set (mqtt_password self))%bool
   then perform (UsernamePwSet (unwrap (mqtt_username self))
                               (unwrap (mqtt_password self))) ;;; ret tt
   else ret tt) ;;;
  try_except
    (log INFO "Connecting to MQTT broker at {self.mqtt_broker}:{self.mqtt_port}" ;;;
     perform (MqttConnect (mqtt_broker self) (mqtt_port self) 60) ;;;
     perform MqttLoopStart ;;;
     ret self)
    is_Exception
    (fun _ => log ERROR "Failed to connect to MQTT broker: {e}" ;;; sys_exit 1).

(** [_on_mqtt_connect]: called by the client's network loop with the
    broker's return code. *)
Definition _on_mqtt_connect (rc : Z) : M unit :=
  if rc =? 0 then log INFO "Connected to MQTT broker"
  else log ERROR "Failed to connect to MQTT broker with code: {rc}".

(** [_on_mqtt_disconnect] *)
Definition _on_mqtt_disconnect (rc : Z) : M unit :=
  if negb (rc =? 0) then log WARNING "Unexpected MQTT disconnection. Code: {rc}"
  else ret tt.

(** [setup_chargepoint] *)
Definition setup_chargepoint (self : monitor) : M monitor :=
  try_except
    (log INFO "Logging in to ChargePoint" ;;;
     perform (ChargePointLogin (cp_username self) (cp_password self)) ;;;
     ret (with_chargepoint self))
    is_Exception
    (fun _ => log ERROR "Failed to log in to ChargePoint: {e}" ;;; sys_exit 1).

(** A method call on an attribute that is still [None]. *)
Definition attribute (present : bool) : M unit :=
  if present then ret tt
  else raise (AttributeError "'NoneType' object has no attribute").

(** [publish_status] *)
Definition publish_status (self : monitor) (connected : Z) (power_watts : float)
  : M unit :=
  try_except
    (attribute (mqtt_client self) ;;;
     perform (MqttPublish (mqtt_topic_connected self) (str_of_int connected) true) ;;;
     log DEBUG "Published connected status: {connected}" ;;;
     perform (MqttPublish (mqtt_topic_power self) (str_of_float power_watts) true) ;;;
     log DEBUG "Published power: {power_watts}W")
    is_Exception
    (fun _ => log ERROR "Failed to publish to MQTT: {e}").

(** Lines 167-168 of [get_charger_status]: the flag read off a status
    reply. *)
Definition connected_of (status : pyval) : res Z :=
  match py_get status "status" (PyStr STATUS_AVAILABLE) with
  | Exc e => Exc e
  | Val st =>
    match py_upper st with
    | Exc e => Exc e
    | Val charging_status =>
      Val (if str_in charging_status [STATUS_CHARGING; STATUS_INUSE]
           then 1 else 0)
    end
  end.

(** Line 172: the reading in kilowatts, as a float. *)
Definition power_kw_of (status : pyval) : res float :=
  match py_get status "power" (PyFloat fzero) with
  | Exc e => Exc e
  | Val p => py_float (py_or p (PyFloat fzero))
  end.

(** Line 173: the reading in watts. *)
Definition power_watts_of (status : pyval) : res float :=
  match power_kw_of status with
  | Exc e => Exc e
  | Val power_kw => Val (fmul power_kw f1000)
  end.

(** Lines 165-173: the pair derived from a status reply. *)
Definition derive (status : pyval) : res (Z * float) :=
  match connected_of status with
  | Exc e => Exc e
  | Val connected =>
    match power_watts_of status with
    | Exc e => Exc e
    | Val power_watts => Val (connected, power_watts)
    end
  end.

(** [get_charger_status] *)
Definition get_charger_status (self : monitor) : M (Z * float) :=
  try_except
    (attribute (chargepoint self) ;;;
     chargers <- perform GetHomeChargers ;;
     if negb (truthy chargers)
     then log WARNING "No home chargers found" ;;; ret (0, fzero)
     else
       device_id <- lift (py_first chargers) ;;
       log DEBUG "Monitoring device_id: {device_id}" ;;;
       status <- perform (GetChargingStatus device_id) ;;
       snapshot <- lift (derive status) ;;
       log INFO "Charger status: connected={connected}, power={power_watts}W" ;;;
       ret snapshot)
    is_Exception
    (fun _ => log ERROR "Error getting charger status: {e}" ;;; ret (0, fzero)).

(** One turn of the loop in [run]. *)
Definition cycle (self : monitor) : M unit :=
  snapshot <- get_charger_status self ;;
  publish_status self (fst snapshot) (snd snapshot) ;;;
  time_sleep (poll_interval self).

Definition is_KeyboardInterrupt (e : exn) : bool :=
  match e with KeyboardInterrupt => true | _ => false end.

(** [run], its loop observed for at most [n] turns. *)
Definition run (self : monitor) (n : nat) : M unit :=
  log INFO "Starting ChargePoint MQTT Monitor" ;;;
  log INFO "Poll interval: {self.poll_interval} seconds" ;;;
  log INFO "MQTT topics: {self.mqtt_topic_connected}, {self.mqtt_topic_power}" ;;;
  self <- setup_mqtt self ;;
  self <- setup_chargepoint self ;;
  try_finally
    (try_except
       (while_true n (cycle self))
       is_KeyboardInterrupt
       (fun _ => log INFO "Shutting down..."))
    (if mqtt_client self
     then perform MqttLoopStop ;;; perform MqttDisconnect ;;; ret tt
     else ret tt).

(** [main] *)
Definition main (env : environ) (n : nat) : M unit :=
  monitor <- __init__ env ;;
  run monitor n.

(** The status the process ends with: 0 when [main] returns, the argument
    of [sys.exit], 1 for an uncaught error (traceback), and 130 when an
    uncaught [KeyboardInterrupt] ends it. *)
Definition exit_status (r : res unit) : Z :=
  match r with
  | Val _ => 0
  | Exc (SystemExit code) => code
  | Exc (Error _ _) => 1
  | Exc KeyboardInterrupt => 130
  end.

End Monitor.

(* ================================================================== *)
(** * Properties *)
(* ================================================================== *)

Import Py Sys Monitor.

(** ** Vocabulary *)

(** The pair [get_charger_status] falls back to: [0, 0.0]. *)
Definition default_snapshot : Z * float := (0, fzero).

(** The fields of a status reply, when it is a [dict] that has them. *)
Definition status_field (reply : pyval) : option pyval :=
  match reply with PyDict d => lookup "status" d | _ => None end.

Definition power_field (reply : pyval) : option pyval :=
  match reply with PyDict d => lookup "power" d | _ => None end.

(** From state [s] on, the upstream lists at least one charger and answers
    the status request for the first one with [reply]. *)
Definition serves (w : world) (s : state) (reply : pyval) : Prop :=
  exists chargers device_id,
    w (history s) GetHomeChargers = Returns chargers /\
    truthy chargers = true /\
    py_first chargers = Val device_id /\
    w (history s ++ [(GetHomeChargers, Returns chargers)])%list
      (GetChargingStatus device_id) = Returns reply.

(** Case-insensitive comparison, letter by letter. *)
Definition same_letter (a b : ascii) : bool :=
  Ascii.eqb (lower_char a) (lower_char b).

Fixpoint eq_nocase (s t : string) : bool :=
  match s, t with
  | EmptyString, EmptyString => true
  | String a s', String b t' => (same_letter a b && eq_nocase s' t')%bool
  | _, _ => false
  end.

Definition all_ascii : list ascii := map ascii_of_nat (seq 0 256).

(** The status field is a string that equals CHARGING or INUSE, letter
    case aside. *)
Definition status_matches (reply : pyval) : Prop :=
  exists st, status_field reply = Some (PyStr st) /\
             (eq_nocase st "CHARGING" || eq_nocase st "INUSE")%bool = true.

(** The snapshot a poll returns, when it returns one. *)
Definition polled (self : monitor) (w : world) (s : state) : option (Z * float) :=
  match fst (get_charger_status self w s) with
  | Some (Val p) => Some p
  | _ => None
  end.

(** A monitor with default settings, after both set-up steps. *)
Definition logged_in : monitor :=
  mkMonitor (Some "user") (Some "secret") "localhost" 1883 None None
    "chargepoint-mqtt" "chargepoint" "chargepoint/connected" "chargepoint/power"
    60 true true.

(** An upstream with one charger that answers [reply]. *)
Definition upstream (reply : pyval) : world :=
  fun _ c =>
    match c with
    | GetHomeChargers => Returns (PyList [PyInt 1])
    | GetChargingStatus _ => Returns reply
    | _ => Returns PyNone
    end.

(** Replies and readings used as concrete inputs.  [f7_2] is 7.2,
    [f7200] is 7200.0, [f_minus_1_5] is -1.5. *)
Definition charging_unreadable_power : pyval :=
  PyDict [("status", PyStr "CHARGING"); ("power", PyStr "n/a")].

Definition f7_2 : float := S754_finite false 8106479329266893 (-50).

(** The sign bit is clear and the value is not a NaN. *)
Definition sign_clear (f : float) : bool :=
  match f with
  | S754_zero false | S754_infinity false | S754_finite false _ _ => true
  | _ => false
  end.

Definition null_status_reading : pyval :=
  PyDict [("status", PyNone); ("power", PyFloat f7_2)].

Definition charging_7_2 : pyval :=
  PyDict [("status", PyStr "CHARGING"); ("power", PyFloat f7_2)].

Definition f_minus_1_5 : float := S754_finite true 6755399441055744 (-52).

Definition feeding_back : pyval :=
  PyDict [("status", PyStr "AVAILABLE"); ("power", PyFloat f_minus_1_5)].

(** No interrupt signal reaches the process. *)
Definition never_interrupts (w : world) : Prop :=
  forall h c, w h c <> Interrupted.

(** The calls made once the listing has returned [chargers]. *)
Definition after_listing (s : state) (chargers : pyval) : list event :=
  (history s ++ [(GetHomeChargers, Returns chargers)])%list.

(** The ways a poll can go wrong once the session exists. *)
Inductive upstream_failure (w : world) (s : state) : Prop :=
| listing_raises mro msg :
    w (history s) GetHomeChargers = Raises mro msg -> upstream_failure w s
| no_chargers chargers :
    w (history s) GetHomeChargers = Returns chargers ->
    truthy chargers = false -> upstream_failure w s
| listing_unusable chargers e :
    w (history s) GetHomeChargers = Returns chargers ->
    truthy chargers = true -> py_first chargers = Exc e -> upstream_failure w s
| status_raises chargers device_id mro msg :
    w (history s) GetHomeChargers = Returns chargers ->
    truthy chargers = true -> py_first chargers = Val device_id ->
    w (after_listing s chargers) (GetChargingStatus device_id) = Raises mro msg ->
    upstream_failure w s
| reply_malformed reply e :
    serves w s reply -> derive reply = Exc e -> upstream_failure w s.

(** An upstream whose listing call fails with a network error. *)
Definition unreachable : world :=
  fun _ c =>
    match c with
    | GetHomeChargers => Raises ["ConnectionError"; "OSError"] "network is unreachable"
    | _ => Returns PyNone
    end.

(** An account with no home charger. *)
Definition no_charger_account : world :=
  fun _ c =>
    match c with
    | GetHomeChargers => Returns (PyList [])
    | _ => Returns PyNone
    end.

(** The derivation failing after the listing succeeded. *)
Inductive fails_after_listing (w : world) (s : state) : Prop :=
| first_charger_fails chargers e :
    w (history s) GetHomeChargers = Returns chargers ->
    truthy chargers = true -> py_first chargers = Exc e ->
    fails_after_listing w s
| status_call_raises chargers device_id mro msg :
    w (history s) GetHomeChargers = Returns chargers ->
    truthy chargers = true -> py_first chargers = Val device_id ->
    w (after_listing s chargers) (GetChargingStatus device_id) = Raises mro msg ->
    fails_after_listing w s
| status_unreadable reply e :
    serves w s reply -> connected_of reply = Exc e -> fails_after_listing w s
| power_unreadable reply c e :
    serves w s reply -> connected_of reply = Val c -> power_kw_of reply = Exc e ->
    fails_after_listing w s.

(** The two broker writes of [publish_status]. *)
Definition write_connected (self : monitor) (connected : Z) : call :=
  MqttPublish (mqtt_topic_connected self) (str_of_int connected) true.

Definition write_power (self : monitor) (power_watts : float) : call :=
  MqttPublish (mqtt_topic_power self) (str_of_float power_watts) true.

Definition is_write (e : event) : bool :=
  match fst e with MqttPublish _ _ _ => true | _ => false end.

Definition f7200 : float := S754_finite false 7916483719987200 (-40).

(** A monitor whose connectivity topic was configured with a wildcard,
    and a client that refuses such a topic, as paho does. *)
Definition wildcard_topic : monitor :=
  mkMonitor (Some "user") (Some "secret") "localhost" 1883 None None
    "chargepoint-mqtt" "chargepoint" "chargepoint/#" "chargepoint/power"
    60 true true.

Definition strict_client : world :=
  fun _ c =>
    match c with
    | MqttPublish "chargepoint/#" _ _ =>
        Raises ["ValueError"] "Publish topic cannot contain wildcards."
    | _ => Returns PyNone
    end.

(** A world in which every call returns. *)
Definition healthy_broker : world := fun _ _ => Returns PyNone.

(** A publish call during which an error is raised. *)
Definition publish_fails (w : world) (self : monitor) (c : Z) (pw : float)
                         (s : state) : Prop :=
  mqtt_client self = false \/
  (exists mro msg, w (history s) (write_connected self c) = Raises mro msg) \/
  (exists v mro msg,
      w (history s) (write_connected self c) = Returns v /\
      w (history s ++ [(write_connected self c, Returns v)])%list
        (write_power self pw) = Raises mro msg).

(** The state after [time.sleep(seconds)] returned. *)
Definition slept (s : state) (seconds : Z) (v : pyval) : state :=
  mkState (history s ++ [(Sleep seconds, Returns v)])%list (logs s).

(** A broker client that raises on every publish. *)
Definition broker_down : world :=
  fun _ c =>
    match c with
    | GetHomeChargers => Returns (PyList [PyInt 1])
    | GetChargingStatus _ => Returns charging_7_2
    | MqttPublish _ _ _ => Raises ["ConnectionError"; "OSError"] "broker is gone"
    | _ => Returns PyNone
    end.

(** Calls made by the loop body. *)
Definition loop_call (c : call) : bool :=
  match c with
  | GetHomeChargers | GetChargingStatus _ | MqttPublish _ _ _ | Sleep _ => true
  | _ => false
  end.

(** Calls that open the two sessions. *)
Definition session_call (c : call) : bool :=
  match c with
  | MqttConnect _ _ _ | MqttLoopStart | ChargePointLogin _ _ => true
  | _ => false
  end.

(** Calls made while starting up. *)
Definition startup_call (c : call) : bool :=
  match c with
  | ImportCallbackAPIVersion | MqttClient _ _ | UsernamePwSet _ _
  | MqttConnect _ _ _ | MqttLoopStart | ChargePointLogin _ _ => true
  | _ => false
  end.

Definition interrupted (e : event) : bool :=
  match snd e with Interrupted => true | _ => false end.

Definition raised (e : event) : bool :=
  match snd e with Raises _ _ => true | _ => false end.

Definition loop_event (e : event) : Prop := loop_call (fst e) = true.

Definition startup_event (e : event) : Prop := startup_call (fst e) = true.

Definition quiet (e : event) : Prop := interrupted e = false.

(** Not a failed attempt to open a session. *)
Definition passed (e : event) : Prop :=
  (session_call (fst e) && raised e)%bool = false.

(** A computation of the loop body: it makes loop calls only, and an
    interrupt, if one comes, is the last thing that happens in it and
    leaves it as [KeyboardInterrupt]. *)
Definition tidy {A} (m : M A) : Prop :=
  forall w s,
  exists ext,
    history (snd (m w s)) = (history s ++ ext)%list /\
    Forall loop_event ext /\
    ((Forall quiet ext /\ fst (m w s) <> Some (Exc KeyboardInterrupt)) \/
     (exists ext' c, ext = (ext' ++ [(c, Interrupted)])%list /\
                     Forall quiet ext' /\
                     fst (m w s) = Some (Exc KeyboardInterrupt))).

(** The same outcome read at another result type. *)
Ltac carry_over H :=
  let Hq := fresh in let Hr := fresh in let He := fresh in
  let ext' := fresh in let c := fresh in let Habs := fresh in
  destruct H as [[Hq Hr]|(ext' & c & He & Hq & Hr)];
  [ left; split; [exact Hq|];
    intros Habs; apply Hr; inversion Habs; reflexivity
  | right; exists ext', c; split; [exact He|]; split; [exact Hq|];
    inversion Hr; reflexivity ].

(** How a start-up step that raised left the trace: the call that failed
    comes last, and nothing before it was a failed session call. *)
Definition fatal (e : exn) (ext : list event) : Prop :=
  exit_status (Exc e) <> 0 /\
  Forall startup_event ext /\
  exists ext' ev,
    ext = (ext' ++ [ev])%list /\ Forall passed ext' /\
    (session_call (fst ev) = true -> raised ev = true -> e = SystemExit 1).

(** Symbolic execution of the start-up steps, one world answer at a time. *)
#[local] Arguments isinstance : simpl never.

Ltac ask_world w :=
  match goal with
  | |- context [w ?h ?c] =>
      let E := fresh "E" in destruct (w h c) eqn:E; cbn
  end.

Ltac settle :=
  eexists; split; [rewrite <- ?app_assoc; cbn; reflexivity|];
  first
    [ (* returned *)
      split; [reflexivity|]; split; repeat constructor
    | (* raised *)
      split; [cbn; discriminate|]; split; [repeat constructor|];
      first
        [ exists []; eexists; split; [reflexivity|]
        | eexists [_]; eexists; split; [reflexivity|]
        | eexists [_; _]; eexists; split; [reflexivity|]
        | eexists [_; _; _]; eexists; split; [reflexivity|]
        | eexists [_; _; _; _]; eexists; split; [reflexivity|]
        | eexists [_; _; _; _; _]; eexists; split; [reflexivity|]
        | eexists [_; _; _; _; _; _]; eexists; split; [reflexivity|] ];
      split; [repeat constructor|];
      cbn; intros; first [reflexivity | discriminate] ].

(** The [finally] clause of [run]. *)
Definition shutdown (self : monitor) : M unit :=
  if mqtt_client self
  then perform MqttLoopStop ;;; perform MqttDisconnect ;;; ret tt
  else ret tt.

(** The [try] statement of [run]: the loop, the [KeyboardInterrupt]
    handler and the [finally] clause. *)
Definition serve (self : monitor) (n : nat) : M unit :=
  try_finally
    (try_except (while_true n (cycle self)) is_KeyboardInterrupt
                (fun _ => log INFO "Shutting down..."))
    (shutdown self).

(** The state after the three opening log lines of [run]. *)
Definition announced (s : state) : state :=
  mkState (history s)
    (((logs s ++ [(INFO, "Starting ChargePoint MQTT Monitor")]) ++
      [(INFO, "Poll interval: {self.poll_interval} seconds")]) ++
     [(INFO, "MQTT topics: {self.mqtt_topic_connected}, {self.mqtt_topic_power}")])%list.

(** An event of the [finally] clause. *)
Definition shutdown_event (e : event) : Prop :=
  fst e = MqttLoopStop \/ fst e = MqttDisconnect.

(** How the process went: it stopped while starting up, or it reached the
    loop. *)
Definition stopped_early (r : option (res unit)) (h : list event) : Prop :=
  exists e,
    r = Some (Exc e) /\ exit_status (Exc e) <> 0 /\ Forall startup_event h /\
    (h = [] \/
     exists pre ev,
       h = (pre ++ [ev])%list /\ Forall passed pre /\
       (session_call (fst ev) = true -> raised ev = true -> e = SystemExit 1)).

Definition reached_loop (w : world) (r : option (res unit)) (h : list event)
  : Prop :=
  exists up loop_ext stop_ext,
    h = (up ++ loop_ext ++ stop_ext)%list /\
    Forall startup_event up /\ Forall passed up /\ Forall quiet up /\
    Forall loop_event loop_ext /\ Forall shutdown_event stop_ext /\
    (Forall quiet loop_ext \/
     exists ext' c,
       loop_ext = (ext' ++ [(c, Interrupted)])%list /\ Forall quiet ext' /\
       forall v1 v2,
         w (up ++ loop_ext)%list MqttLoopStop = Returns v1 ->
         w ((up ++ loop_ext) ++ [(MqttLoopStop, Returns v1)])%list
           MqttDisconnect = Returns v2 ->
         stop_ext = [(MqttLoopStop, Returns v1); (MqttDisconnect, Returns v2)] /\
         r = Some (Val tt)).

Definition environment (vars : list (string * string)) : environ :=
  fun name =>
    match find (fun kv => String.eqb name (fst kv)) vars with
    | Some kv => Some (snd kv)
    | None => None
    end.

Definition no_password : environ :=
  environment [("CHARGEPOINT_USERNAME", "user")].

Definition credentials : environ :=
  environment [("CHARGEPOINT_USERNAME", "user"); ("CHARGEPOINT_PASSWORD", "secret")].

(** A broker nobody listens at. *)
Definition broker_refuses : world :=
  fun _ c =>
    match c with
    | MqttConnect _ _ _ => Raises ["ConnectionRefusedError"; "ConnectionError"; "OSError"]
                                  "Connection refused"
    | _ => Returns PyNone
    end.

(** The operator presses Ctrl-C during the third sleep. *)
Definition interrupt_third_sleep : world :=
  fun h c =>
    match c with
    | GetHomeChargers => Returns (PyList [PyInt 1])
    | GetChargingStatus _ => Returns charging_7_2
    | Sleep _ =>
        if Nat.leb 2 (List.length (filter (fun e => match fst e with
                                                    | Sleep _ => true
                                                    | _ => false
                                                    end) h))
        then Interrupted else Returns PyNone
    | _ => Returns PyNone
    end.

(** The payloads written to the broker, in order. *)
Definition written (h : list event) : list (string * string) :=
  flat_map (fun e => match fst e with
                     | MqttPublish topic payload _ => [(topic, payload)]
                     | _ => []
                     end) h.

Definition available_idle : pyval :=
  PyDict [("status", PyStr "AVAILABLE"); ("power", PyInt 0)].

(** Start-up against a world that refuses a call. *)
Definition is_connect (c : call) : bool :=
  match c with MqttConnect _ _ _ => true | _ => false end.

Definition is_login (c : call) : bool :=
  match c with ChargePointLogin _ _ => true | _ => false end.

(** While the process starts up, the world refuses the calls picked by
    [refused], each with an error, and answers every other call. *)
Definition refuses (refused : call -> bool) (w : world) : Prop :=
  forall h c,
    startup_call c = true ->
    if refused c then exists mro msg, w h c = Raises mro msg
    else exists v, w h c = Returns v.

(** The environment passes [__init__]: both credentials are set and the
    two numbers are integer literals. *)
Definition starts_with (env : environ) (port interval : Z) : Prop :=
  set (getenv env "CHARGEPOINT_USERNAME") = true /\
  set (getenv env "CHARGEPOINT_PASSWORD") = true /\
  int_of_string (getenv_default env "MQTT_PORT" "1883") = Some port /\
  int_of_string (getenv_default env "POLL_INTERVAL" "60") = Some interval.

(** The process made the call [c], the call raised, and the process ended
    there through [sys.exit(1)]: [c] is the last event; before it there
    was no call of the loop and no call of the refused kind. *)
Definition dies_at (refused : call -> bool) (c : call)
  (out : option (res unit) * state) : Prop :=
  fst out = Some (Exc (SystemExit 1)) /\
  exit_status (Exc (SystemExit 1)) = 1 /\
  exists pre mro msg,
    history (snd out) = (pre ++ [(c, Raises mro msg)])%list /\
    Forall (fun e => loop_call (fst e) = false /\ refused (fst e) = false) pre.

(** The ChargePoint service rejects the login. *)
Definition login_refused : world :=
  fun _ c =>
    match c with
    | ChargePointLogin _ _ => Raises ["ChargePointLoginError"; "Exception"]
                                     "invalid credentials"
    | _ => Returns PyNone
    end.

(** ** Vocabulary of the further properties *)

(** The events and log records a computation added to a state. *)
Definition events_since (s s' : state) : list event :=
  skipn (List.length (history s)) (history s').
Definition logged_since (s s' : state) : list (level * string) :=
  skipn (List.length (logs s)) (logs s').

(** The environment holds everything [__init__] needs. *)
Definition configured (env : environ) : bool :=
  (set (getenv env "CHARGEPOINT_USERNAME") &&
   set (getenv env "CHARGEPOINT_PASSWORD"))%bool.

(** A monitor without session and without client, as [__init__] leaves
    it. *)
Definition fresh : monitor :=
  mkMonitor (Some "user") (Some "secret") "localhost" 1883 None None
    "chargepoint-mqtt" "chargepoint" "chargepoint/connected" "chargepoint/power"
    60 false false.

Definition charging_empty_power : pyval :=
  PyDict [("status", PyStr "charging"); ("power", PyStr EmptyString)].

(** The calls by which [setup_mqtt] wires the client to the broker. *)
Definition wiring_call (c : call) : bool :=
  match c with
  | UsernamePwSet _ _ | MqttConnect _ _ _ | MqttLoopStart => true
  | _ => false
  end.

Definition wiring (h : list event) : list call :=
  map fst (filter (fun e => wiring_call (fst e)) h).

(** A paho-mqtt older than 2.0: the import of [CallbackAPIVersion] fails. *)
Definition old_paho : world :=
  fun _ c =>
    match c with
    | ImportCallbackAPIVersion =>
        Raises ["ImportError"] "cannot import name 'CallbackAPIVersion'"
    | _ => Returns PyNone
    end.

(** A monitor with broker credentials. *)
Definition with_broker_login : monitor :=
  mkMonitor (Some "user") (Some "secret") "broker.lan" 8883
    (Some "mqtt-user") (Some "mqtt-pass")
    "chargepoint-mqtt" "chargepoint" "chargepoint/connected" "chargepoint/power"
    60 false false.

(** A computation adds only events that satisfy [P], and a value it
    returns satisfies [Q]. *)
Definition produces {A} (m : M A) (P : event -> Prop) (Q : A -> Prop) : Prop :=
  forall w s,
  exists ext,
    history (snd (m w s)) = (history s ++ ext)%list /\
    Forall P ext /\
    forall a, fst (m w s) = Some (Val a) -> Q a.

(** Every call carries the settings of the monitor: the configured host,
    port, client id, credentials and topics, keep-alive 60, retained
    writes with a flag payload of "0" or "1", sleeps of exactly
    [poll_interval]. *)
Definition as_configured (self : monitor) (e : event) : Prop :=
  match fst e with
  | MqttClient client_id _ => client_id = mqtt_client_id self
  | UsernamePwSet u p =>
      mqtt_username self = Some u /\ mqtt_password self = Some p
  | MqttConnect host port keepalive =>
      host = mqtt_broker self /\ port = mqtt_port self /\ keepalive = 60
  | ChargePointLogin u p => u = cp_username self /\ p = cp_password self
  | MqttPublish topic payload retain =>
      retain = true /\
      ((topic = mqtt_topic_connected self /\ (payload = "0" \/ payload = "1")) \/
       (topic = mqtt_topic_power self /\ exists f, payload = str_of_float f))
  | Sleep seconds => seconds = poll_interval self /\ 0 <= seconds <= 9223372036
  | _ => True
  end.

Definition flag (snapshot : Z * float) : Prop :=
  fst snapshot = 0 \/ fst snapshot = 1.

Definition anything {A} (_ : A) : Prop := True.

Definition is_sleep (e : event) : bool :=
  match fst e with Sleep _ => true | _ => false end.

(** [time.sleep] accepts the interval. *)
Definition sleepable (seconds : Z) : Prop := 0 <= seconds <= 9223372036.

(** The sleep call itself never fails. *)
Definition sleeps_return (w : world) : Prop :=
  forall h seconds, exists v, w h (Sleep seconds) = Returns v.

(** Upstream and broker fail on every call. *)
Definition all_down : world :=
  fun _ c =>
    match c with
    | Sleep _ => Returns PyNone
    | _ => Raises ["ConnectionError"; "OSError"] "unreachable"
    end.

Definition negative_interval : monitor :=
  mkMonitor (Some "user") (Some "secret") "localhost" 1883 None None
    "chargepoint-mqtt" "chargepoint" "chargepoint/connected" "chargepoint/power"
    (-5) false false.

(** The operator presses Ctrl-C while the second status request is under
    way. *)
Definition interrupt_second_status : world :=
  fun h c =>
    match c with
    | GetHomeChargers => Returns (PyList [PyInt 1])
    | GetChargingStatus _ =>
        if Nat.leb 1 (List.length (filter is_sleep h))
        then Interrupted else Returns charging_7_2
    | _ => Returns PyNone
    end.

(** Both sessions open; afterwards upstream and broker fail on every
    call. *)
Definition all_down_after_startup : world :=
  fun _ c =>
    if startup_call c then Returns PyNone
    else match c with
         | Sleep _ | MqttLoopStop | MqttDisconnect => Returns PyNone
         | _ => Raises ["ConnectionError"; "OSError"] "unreachable"
         end.

Definition nan_reading : pyval :=
  PyDict [("status", PyStr "AVAILABLE"); ("power", PyStr "nan")].

(** Closes a goal about the history after a run of calls. *)
Ltac finish_trace :=
  cbn; rewrite <- ?app_assoc; cbn; reflexivity.

(** The first [try] of [setup_mqtt] (lines 67-75), which builds the
    client, and the rest of the method, which connects it. *)
Definition build_client (self : monitor) : M monitor :=
  try_except
    (perform ImportCallbackAPIVersion ;;;
     perform (MqttClient (mqtt_client_id self) true) ;;;
     ret (with_mqtt_client self))
    (fun e => isinstance e ["ImportError"; "AttributeError"])
    (fun _ =>
     perform (MqttClient (mqtt_client_id self) false) ;;;
     ret (with_mqtt_client self)).

Definition connect_client (self : monitor) : M monitor :=
  (if (set (mqtt_username self) && set (mqtt_password self))%bool
   then perform (UsernamePwSet (unwrap (mqtt_username self))
                               (unwrap (mqtt_password self))) ;;; ret tt
   else ret tt) ;;;
  try_except
    (log INFO "Connecting to MQTT broker at {self.mqtt_broker}:{self.mqtt_port}" ;;;
     perform (MqttConnect (mqtt_broker self) (mqtt_port self) 60) ;;;
     perform MqttLoopStart ;;;
     ret self)
    is_Exception
    (fun _ => log ERROR "Failed to connect to MQTT broker: {e}" ;;; sys_exit 1).

(** The constructor without [callback_api_version]. *)
Definition plain_constructor (e : event) : bool :=
  match fst e with MqttClient _ false => true | _ => false end.

(** The import of [CallbackAPIVersion], or else the first constructor
    call, raises an error the [except] clause of line 73 names. *)
Definition fallback_trigger (w : world) (self : monitor) (s : state) : Prop :=
  (exists mro msg,
      w (history s) ImportCallbackAPIVersion = Raises mro msg /\
      isinstance (Error mro msg) ["ImportError"; "AttributeError"] = true) \/
  (exists v mro msg,
      w (history s) ImportCallbackAPIVersion = Returns v /\
      w (history s ++ [(ImportCallbackAPIVersion, Returns v)])%list
        (MqttClient (mqtt_client_id self) true) = Raises mro msg /\
      isinstance (Error mro msg) ["ImportError"; "AttributeError"] = true).

(** ** Lemmas and theorems *)

Lemma derive_raises_error reply e : derive reply = Exc e -> is_Exception e = true.
Proof.
  unfold derive, connected_of, power_watts_of, power_kw_of, py_get, py_upper, py_float, float_of_int.
  destruct reply; try (intros H; inversion H; reflexivity).
  destruct (lookup "status" d) as [st|].
  - destruct st; try (intros H; inversion H; reflexivity).
    destruct (lookup "power" d) as [p|]; cbn.
    + destruct (py_or p (PyFloat fzero)); try (intros H; inversion H; reflexivity).
      * destruct (round_Z z); intros H; inversion H; reflexivity.
      * destruct (float_of_string s0); intros H; inversion H; reflexivity.
    + intros H; inversion H.
  - cbn. destruct (lookup "power" d) as [p|]; cbn.
    + destruct (py_or p (PyFloat fzero)); try (intros H; inversion H; reflexivity).
      * destruct (round_Z z); intros H; inversion H; reflexivity.
      * destruct (float_of_string s); intros H; inversion H; reflexivity.
    + intros H; inversion H.
Qed.

Lemma poll_of_reply w self s reply :
  chargepoint self = true -> serves w s reply ->
  fst (get_charger_status self w s) =
  Some (Val (match derive reply with Val p => p | Exc _ => default_snapshot end)).
Proof.
  intros Hcp (chargers & id & Hl & Ht & Hf & Hs).
  unfold get_charger_status, try_except, bind, attribute, perform, lift, log, ret, raise.
  rewrite Hcp. cbn. rewrite Hl. cbn. rewrite Ht. cbn. rewrite Hf. cbn.
  rewrite Hs. cbn.
  destruct (derive reply) as [p|e] eqn:Hd; cbn.
  - reflexivity.
  - rewrite (derive_raises_error _ _ Hd). reflexivity.
Qed.

Lemma in_all_ascii a : In a all_ascii.
Proof.
  unfold all_ascii. rewrite <- (ascii_nat_embedding a).
  apply in_map, in_seq. pose proof (nat_ascii_bounded a). lia.
Qed.

Lemma upper_char_same_letter a b :
  Ascii.eqb (upper_char a) (upper_char b) = same_letter a b.
Proof.
  assert (H : forallb (fun a => forallb (fun b =>
              Bool.eqb (Ascii.eqb (upper_char a) (upper_char b)) (same_letter a b))
              all_ascii) all_ascii = true) by (vm_compute; reflexivity).
  rewrite forallb_forall in H. specialize (H a (in_all_ascii a)).
  rewrite forallb_forall in H. specialize (H b (in_all_ascii b)).
  apply Bool.eqb_prop in H. exact H.
Qed.

Lemma upper_eq_nocase s : forall t,
  String.eqb (upper s) (upper t) = eq_nocase s t.
Proof.
  induction s as [|a s IH]; intros [|b t]; cbn; try reflexivity.
  rewrite upper_char_same_letter, IH. reflexivity.
Qed.

Lemma connected_iff_nocase s :
  str_in (upper s) [STATUS_CHARGING; STATUS_INUSE] =
  (eq_nocase s "CHARGING" || eq_nocase s "INUSE")%bool.
Proof.
  unfold str_in, existsb.
  change STATUS_CHARGING with (upper "CHARGING").
  change STATUS_INUSE with (upper "INUSE").
  rewrite !upper_eq_nocase. rewrite orb_false_r. reflexivity.
Qed.

Lemma connected_of_cases reply c :
  connected_of reply = Val c ->
  (c = 1 /\ status_matches reply) \/ (c = 0 /\ ~ status_matches reply).
Proof.
  unfold connected_of, py_get, status_matches, status_field.
  destruct reply; try discriminate.
  destruct (lookup "status" d) as [st|] eqn:Hl.
  - unfold py_upper. destruct st; try discriminate.
    rewrite connected_iff_nocase. intros H; inversion H; clear H.
    destruct (eq_nocase s "CHARGING" || eq_nocase s "INUSE")%bool eqn:Hm.
    + left. split; [reflexivity|]. exists s. auto.
    + right. split; [reflexivity|]. intros (st & Hst & Hc).
      inversion Hst; subst. congruence.
  - cbn. intros H; inversion H. right. split; [reflexivity|].
    intros (st & Hst & _). discriminate.
Qed.


Lemma derive_cases reply :
  (exists c x, connected_of reply = Val c /\ power_kw_of reply = Val x /\
               derive reply = Val (c, fmul x f1000)) \/
  (exists e, derive reply = Exc e /\
             (connected_of reply = Exc e \/
              (exists c, connected_of reply = Val c) /\ power_kw_of reply = Exc e)).
Proof.
  unfold derive, power_watts_of.
  destruct (connected_of reply) as [c|e].
  - destruct (power_kw_of reply) as [x|e].
    + left. exists c, x. auto.
    + right. exists e. split; [reflexivity|]. right. split; [exists c|]; reflexivity.
  - right. exists e. auto.
Qed.


Lemma upstream_serves reply s : serves (upstream reply) s reply.
Proof. exists (PyList [PyInt 1]), (PyInt 1). repeat split. Qed.



Lemma iter_pos_invariant {A} (P : A -> Prop) (f : A -> A) :
  (forall a, P a -> P (f a)) -> forall n a, P a -> P (iter_pos f n a).
Proof.
  intros Hf. induction n as [n IH|n IH|]; intros a Ha; cbn; auto.
Qed.

Lemma shr_1_nonneg mrs : 0 <= shr_m mrs -> 0 <= shr_m (shr_1 mrs).
Proof.
  destruct mrs as [m r s]. cbn. intros Hm.
  destruct m as [|p|p]; [cbn; lia| |lia].
  destruct p; cbn; lia.
Qed.

Lemma shr_nonneg mrs e n : 0 <= shr_m mrs -> 0 <= shr_m (fst (shr mrs e n)).
Proof.
  intros Hm. unfold shr. destruct n; cbn; auto.
  apply iter_pos_invariant; auto using shr_1_nonneg.
Qed.

Lemma shr_fexp_nonneg m e l :
  0 <= m -> 0 <= shr_m (fst (shr_fexp prec emax m e l)).
Proof.
  intros Hm. unfold shr_fexp. apply shr_nonneg.
  destruct l as [|[]]; cbn; exact Hm.
Qed.

Lemma round_nearest_even_nonneg m l : 0 <= m -> 0 <= round_nearest_even m l.
Proof.
  intros Hm. unfold round_nearest_even.
  destruct l as [|[]]; try lia. destruct (Z.even m); lia.
Qed.

Lemma binary_round_aux_sign m e l :
  0 <= m -> sign_clear (binary_round_aux prec emax false m e l) = true.
Proof.
  intros Hm. unfold binary_round_aux.
  pose proof (shr_fexp_nonneg m e l Hm) as H1.
  destruct (shr_fexp prec emax m e l) as [mrs' e'] eqn:E1. cbn [fst] in H1.
  pose proof (shr_fexp_nonneg _ e' loc_Exact
                (round_nearest_even_nonneg _ (loc_of_shr_record mrs') H1)) as H2.
  destruct (shr_fexp prec emax (round_nearest_even (shr_m mrs') (loc_of_shr_record mrs')) e' loc_Exact)
    as [mrs'' e''] eqn:E2. cbn [fst] in H2.
  destruct (shr_m mrs'') as [|p|p]; [reflexivity| |lia].
  destruct (e'' <=? emax - prec); reflexivity.
Qed.

Lemma nonneg_cases x :
  fleb fzero x = true ->
  (exists s, x = S754_zero s) \/ sign_clear x = true.
Proof.
  destruct x as [s|s| |s m e]; cbn; intros H.
  - left. eauto.
  - destruct s; [discriminate|auto].
  - discriminate.
  - destruct s; [discriminate|auto].
Qed.

Lemma sign_clear_nonneg x : sign_clear x = true -> fleb fzero x = true.
Proof. destruct x as [[]|[]| |[] m e]; cbn; congruence. Qed.

Lemma fmul_1000_nonneg x :
  fleb fzero x = true -> fleb fzero (fmul x f1000) = true.
Proof.
  intros H. destruct x as [s|s| |s m e]; cbn in *.
  - reflexivity.
  - destruct s; [discriminate|reflexivity].
  - discriminate.
  - destruct s; [discriminate|]. apply sign_clear_nonneg.
    unfold fmul, f1000, SFmul. cbn [xorb]. apply binary_round_aux_sign. lia.
Qed.

Lemma feqb_refl x : fleb fzero x = true -> feqb x x = true.
Proof.
  destruct x as [s|s| |s m e]; cbn; try congruence.
  - destruct s; reflexivity.
  - destruct s; [discriminate|]. intros _. unfold feqb, SFeqb, SFcompare.
    rewrite Z.compare_refl, Pos.compare_cont_refl. reflexivity.
Qed.

Lemma falsy_float_is_zero k x :
  truthy k = false -> py_float k = Val x -> exists s, x = S754_zero s.
Proof.
  destruct k; cbn; intros Ht Hx; try discriminate.
  - subst b. inversion Hx. exists false. reflexivity.
  - apply negb_false_iff, Z.eqb_eq in Ht. subst z.
    vm_compute in Hx. inversion Hx. exists false. reflexivity.
  - inversion Hx; subst x. apply negb_false_iff in Ht.
    destruct f as [s0|s0| |s0 m e]; cbn in Ht; try discriminate.
    + exists s0. reflexivity.
    + destruct s0; discriminate.
    + destruct s0; discriminate.
  - apply negb_false_iff, String.eqb_eq in Ht. subst s.
    vm_compute in Hx. discriminate.
Qed.

Lemma power_kw_of_field d k x :
  lookup "power" d = Some k -> py_float k = Val x ->
  exists y, power_kw_of (PyDict d) = Val y /\
            (y = x \/ exists s, x = S754_zero s /\ y = fzero).
Proof.
  intros Hl Hx. unfold power_kw_of, py_get. rewrite Hl. unfold py_or.
  destruct (truthy k) eqn:Ht.
  - exists x. auto.
  - destruct (falsy_float_is_zero _ _ Ht Hx) as [s ->].
    exists fzero. split; [reflexivity|]. right. eauto.
Qed.

Lemma power_kw_of_absent reply :
  power_field reply = None \/ power_field reply = Some PyNone ->
  power_kw_of reply = Val fzero \/ exists e, power_kw_of reply = Exc e.
Proof.
  unfold power_field, power_kw_of, py_get.
  destruct reply; try (intros _; right; eexists; reflexivity).
  intros [-> | ->]; left; reflexivity.
Qed.

(** C2 (as amended).  For a status reply whose status field can be read
    and whose power field [k] converts to a non-negative float [x], the
    poll returns power_watts equal to the binary64 product [x * 1000.0];
    when the power field is missing or null it returns 0.0, whatever else
    the reply holds. *)
Theorem power_watts_from_reading w self s reply :
  chargepoint self = true -> serves w s reply ->
  (forall k x c,
      power_field reply = Some k -> py_float k = Val x -> fleb fzero x = true ->
      connected_of reply = Val c ->
      exists pw, polled self w s = Some (c, pw) /\ feqb pw (fmul x f1000) = true) /\
  (power_field reply = None \/ power_field reply = Some PyNone ->
   option_map snd (polled self w s) = Some fzero).
Proof.
  intros Hcp Hs. unfold polled. rewrite (poll_of_reply _ _ _ _ Hcp Hs). split.
  - intros k x c Hk Hx Hpos Hc. unfold power_field in Hk.
    destruct reply; try discriminate.
    destruct (power_kw_of_field _ _ _ Hk Hx) as (y & Hy & Hyx).
    unfold derive, power_watts_of. rewrite Hc, Hy.
    exists (fmul y f1000). split; [reflexivity|].
    destruct Hyx as [-> | (sg & -> & ->)].
    + apply feqb_refl, fmul_1000_nonneg, Hpos.
    + destruct sg; reflexivity.
  - intros Habs. unfold derive, power_watts_of.
    destruct (connected_of reply); [|reflexivity].
    destruct (power_kw_of_absent _ Habs) as [-> | [e ->]]; reflexivity.
Qed.

(** C2 as stated fails: the reply carries the reading 7.2 but a null
    status; [None.upper()] raises and power_watts is 0.0, not 7200.0. *)
Lemma power_watts_from_reading_fails :
  serves (upstream null_status_reading) start null_status_reading /\
  power_field null_status_reading = Some (PyFloat f7_2) /\
  fleb fzero f7_2 = true /\
  option_map snd (polled logged_in (upstream null_status_reading) start) = Some fzero /\
  feqb fzero (fmul f7_2 f1000) = false.
Proof.
  split; [apply upstream_serves|]. repeat split.
Qed.

(** C2 at the reply [{status: "CHARGING", power: 7.2}]. *)
Lemma power_watts_from_reading_witness :
  exists pw,
    polled logged_in (upstream charging_7_2) start = Some (1, pw) /\
    feqb pw (fmul f7_2 f1000) = true.
Proof.
  apply (proj1 (power_watts_from_reading (upstream charging_7_2) logged_in start
                  charging_7_2 eq_refl (upstream_serves _ _))
               (PyFloat f7_2) f7_2 1);
    reflexivity.
Defined.

(** C7 (as amended).  For every status reply whose power reading, when it
    can be read as a float, is not negative (and not a NaN), the
    power_watts the poll returns is not negative: it is 0.0, a positive
    float, or +inf when the product overflows. *)
Theorem power_watts_nonneg w self s reply :
  chargepoint self = true -> serves w s reply ->
  (forall x, power_kw_of reply = Val x -> fleb fzero x = true) ->
  exists c pw, polled self w s = Some (c, pw) /\ fleb fzero pw = true.
Proof.
  intros Hcp Hs Hpos. unfold polled. rewrite (poll_of_reply _ _ _ _ Hcp Hs).
  destruct (derive_cases reply) as [(c & x & Hc & Hx & Hd)|(e & Hd & _)]; rewrite Hd.
  - exists c, (fmul x f1000). split; [reflexivity|].
    apply fmul_1000_nonneg, Hpos, Hx.
  - exists 0, fzero. split; reflexivity.
Qed.

(** C7 as stated fails: a reading of -1.5 kW gives -1500.0 watts. *)
Lemma power_watts_nonneg_fails :
  serves (upstream feeding_back) start feeding_back /\
  exists pw, option_map snd (polled logged_in (upstream feeding_back) start) = Some pw /\
             fleb fzero pw = false /\ str_of_float pw = "-1500.0".
Proof.
  split; [apply upstream_serves|].
  eexists. split; [vm_compute; reflexivity|]. split; vm_compute; reflexivity.
Qed.

(** C7 at the reply [{status: "CHARGING", power: 7.2}]. *)
Lemma power_watts_nonneg_witness :
  exists c pw, polled logged_in (upstream charging_7_2) start = Some (c, pw) /\
               fleb fzero pw = true.
Proof.
  apply (power_watts_nonneg (upstream charging_7_2) logged_in start charging_7_2).
  - reflexivity.
  - apply upstream_serves.
  - intros x H. vm_compute in H. inversion H. reflexivity.
Defined.

Lemma py_first_raises_error v e : py_first v = Exc e -> is_Exception e = true.
Proof.
  destruct v as [| | | |[|c r]|[|x l]|d]; cbn; intros H; inversion H; reflexivity.
Qed.

Lemma derive_flag reply c pw : derive reply = Val (c, pw) -> c = 0 \/ c = 1.
Proof.
  unfold derive. destruct (connected_of reply) as [c'|] eqn:Hc; [|discriminate].
  destruct (power_watts_of reply); [|discriminate].
  intros H; inversion H; subst.
  destruct (connected_of_cases _ _ Hc) as [[-> _]|[-> _]]; auto.
Qed.

(** What one poll does, case by case on the answers of the world. *)
Lemma poll_cases w self s :
  never_interrupts w ->
  exists c pw s',
    get_charger_status self w s = (Some (Val (c, pw)), s') /\
    ((c, pw) = default_snapshot \/
     (chargepoint self = true /\
      exists reply, serves w s reply /\ derive reply = Val (c, pw))).
Proof.
  intros Hw.
  unfold get_charger_status, try_except, bind, attribute, perform, lift, log, ret, raise.
  destruct (chargepoint self) eqn:Hcp; cbn.
  2:{ do 3 eexists. split; [reflexivity|]. left; reflexivity. }
  destruct (w (history s) GetHomeChargers) as [chargers|mro msg|] eqn:Hl; cbn.
  3:{ destruct (Hw _ _ Hl). }
  2:{ do 3 eexists. split; [reflexivity|]. left; reflexivity. }
  destruct (truthy chargers) eqn:Ht; cbn.
  2:{ do 3 eexists. split; [reflexivity|]. left; reflexivity. }
  destruct (py_first chargers) as [id|e] eqn:Hf; cbn.
  2:{ rewrite (py_first_raises_error _ _ Hf).
      do 3 eexists. split; [reflexivity|]. left; reflexivity. }
  destruct (w (history s ++ [(GetHomeChargers, Returns chargers)])%list
              (GetChargingStatus id)) as [reply|mro msg|] eqn:Hs; cbn.
  3:{ destruct (Hw _ _ Hs). }
  2:{ do 3 eexists. split; [reflexivity|]. left; reflexivity. }
  destruct (derive reply) as [[c pw]|e] eqn:Hd; cbn.
  - do 3 eexists. split; [reflexivity|]. right. split; [reflexivity|].
    exists reply. split; [|exact Hd]. exists chargers, id. auto.
  - rewrite (derive_raises_error _ _ Hd).
    do 3 eexists. split; [reflexivity|]. left; reflexivity.
Qed.

Lemma serves_unique w s r1 r2 : serves w s r1 -> serves w s r2 -> r1 = r2.
Proof.
  intros (c1 & i1 & Hl1 & _ & Hf1 & Hs1) (c2 & i2 & Hl2 & _ & Hf2 & Hs2).
  rewrite Hl1 in Hl2. inversion Hl2; subst c2.
  rewrite Hf1 in Hf2. inversion Hf2; subst i2.
  rewrite Hs1 in Hs2. inversion Hs2. reflexivity.
Qed.

Lemma failure_excludes_reply w s reply snap :
  upstream_failure w s -> serves w s reply -> derive reply = Val snap -> False.
Proof.
  intros Hfail (c & i & Hl & Ht & Hf & Hs) Hd.
  destruct Hfail as [mro msg H|ch H H'|ch e H H' H''|ch id mro msg H H' H'' H3|r e H H'].
  - congruence.
  - rewrite Hl in H. inversion H; subst. congruence.
  - rewrite Hl in H. inversion H; subst. congruence.
  - rewrite Hl in H. inversion H; subst ch.
    rewrite Hf in H''. inversion H''; subst id.
    unfold after_listing in H3. congruence.
  - assert (r = reply) by (eapply serves_unique; eauto; exists c, i; auto).
    subst. congruence.
Qed.

(** C3.  Whatever the upstream does short of an interrupt signal (return
    anything, raise any error), [get_charger_status] returns a pair, never
    an error: its flag is 0 or 1, and after any upstream failure (the
    listing raises, lists nothing or cannot be indexed, the status call
    raises, the reply is malformed) the pair is exactly the default. *)
Theorem poll_never_raises w self s :
  never_interrupts w ->
  exists c pw s',
    get_charger_status self w s = (Some (Val (c, pw)), s') /\
    (c = 0 \/ c = 1) /\
    (upstream_failure w s -> (c, pw) = default_snapshot).
Proof.
  intros Hw. destruct (poll_cases w self s Hw) as (c & pw & s' & Hrun & Hcase).
  exists c, pw, s'. split; [exact Hrun|].
  destruct Hcase as [Hdef|(_ & reply & Hs & Hd)].
  - inversion Hdef; subst. split; auto.
  - split; [eapply derive_flag; eauto|].
    intros Hfail. destruct (failure_excludes_reply _ _ _ _ Hfail Hs Hd).
Qed.

Lemma unreachable_never_interrupts : never_interrupts unreachable.
Proof. intros h c. unfold unreachable. destruct c; discriminate. Qed.

(** C3 with a listing call that raises a network error. *)
Lemma poll_never_raises_witness :
  exists s',
    get_charger_status logged_in unreachable start
    = (Some (Val default_snapshot), s').
Proof.
  destruct (poll_never_raises unreachable logged_in start
              unreachable_never_interrupts) as (c & pw & s' & Hrun & _ & Hdef).
  exists s'. rewrite Hrun.
  rewrite (Hdef (listing_raises unreachable start _ _ eq_refl)).
  reflexivity.
Defined.

(** C4.  When the listing comes back empty (or falsy in any other way),
    the poll returns exactly the default pair and the only call it made
    is the listing: no status request is issued. *)
Theorem no_chargers_default w self s chargers :
  chargepoint self = true ->
  w (history s) GetHomeChargers = Returns chargers ->
  truthy chargers = false ->
  exists s',
    get_charger_status self w s = (Some (Val default_snapshot), s') /\
    history s' = (history s ++ [(GetHomeChargers, Returns chargers)])%list.
Proof.
  intros Hcp Hl Ht.
  unfold get_charger_status, try_except, bind, attribute, perform, lift, log, ret, raise.
  rewrite Hcp. cbn. rewrite Hl. cbn. rewrite Ht. cbn.
  eexists. split; reflexivity.
Qed.

(** C4 with the empty list. *)
Lemma no_chargers_default_witness :
  exists s',
    get_charger_status logged_in no_charger_account start
      = (Some (Val default_snapshot), s') /\
    history s' = (history start ++ [(GetHomeChargers, Returns (PyList []))])%list.
Proof.
  apply (no_chargers_default no_charger_account logged_in start (PyList []));
    reflexivity.
Defined.

Lemma fails_after_listing_failure w s :
  fails_after_listing w s -> upstream_failure w s.
Proof.
  intros [ch e H1 H2 H3|ch id mro msg H1 H2 H3 H4|reply e H1 H2|reply c e H1 H2 H3].
  - eapply listing_unusable; eauto.
  - eapply status_raises; eauto.
  - eapply reply_malformed; eauto. unfold derive. rewrite H2. reflexivity.
  - eapply reply_malformed; eauto. unfold derive, power_watts_of. rewrite H2, H3.
    reflexivity.
Qed.

(** C10.  The poll is all-or-default: if anything fails after the listing
    succeeded (the first entry cannot be taken, the status call raises,
    the status field or, later, the power field cannot be read) the
    result is the full default pair; and in every case the result is
    either the default pair or the pair derived from the reply as a whole,
    never a mix. *)
Theorem all_or_default w self s :
  never_interrupts w ->
  exists snap,
    polled self w s = Some snap /\
    (fails_after_listing w s -> snap = default_snapshot) /\
    (snap = default_snapshot \/
     exists reply, serves w s reply /\ derive reply = Val snap).
Proof.
  intros Hw. destruct (poll_cases w self s Hw) as (c & pw & s' & Hrun & Hcase).
  exists (c, pw). unfold polled. rewrite Hrun. cbn. split; [reflexivity|]. split.
  - intros Hfail. destruct Hcase as [Hdef|(_ & reply & Hs & Hd)]; [exact Hdef|].
    destruct (failure_excludes_reply _ _ _ _
                (fails_after_listing_failure _ _ Hfail) Hs Hd).
  - destruct Hcase as [Hdef|(_ & reply & Hs & Hd)]; [left; exact Hdef|].
    right. exists reply. auto.
Qed.

Lemma upstream_never_interrupts reply : never_interrupts (upstream reply).
Proof. intros h c. unfold upstream. destruct c; discriminate. Qed.

(** C10 at the reply [{status: "CHARGING", power: "n/a"}]: the flag was
    already 1 when [float()] raised, and the result is [0, 0.0]. *)
Lemma all_or_default_witness :
  polled logged_in (upstream charging_unreadable_power) start
  = Some default_snapshot.
Proof.
  destruct (all_or_default (upstream charging_unreadable_power) logged_in start
              (upstream_never_interrupts _)) as (snap & Hp & Hdef & _).
  rewrite Hp.
  rewrite (Hdef (power_unreadable _ _ charging_unreadable_power 1 _
                   (upstream_serves _ _) eq_refl eq_refl)).
  reflexivity.
Defined.

(** C5 (as amended).  One call to [publish_status] on a connected client
    issues the connectivity write, carrying "0" or "1" for a flag of 0 or
    1, and then, provided that write returned, the power write carrying
    [str(power_watts)]; each write is retained.  So two writes when the
    first returns, one when it raises or is interrupted. *)
Theorem publish_writes w self s c pw :
  mqtt_client self = true ->
  exists r s',
    publish_status self c pw w s = (r, s') /\
    match w (history s) (write_connected self c) with
    | Returns v =>
        history s' =
        (history s ++
         [(write_connected self c, Returns v);
          (write_power self pw,
           w (history s ++ [(write_connected self c, Returns v)])
             (write_power self pw))])%list
    | r1 => history s' = (history s ++ [(write_connected self c, r1)])%list
    end /\
    (c = 0 -> str_of_int c = "0") /\ (c = 1 -> str_of_int c = "1").
Proof.
  intros Hc.
  unfold publish_status, try_except, bind, attribute, perform, log, ret, raise.
  rewrite Hc. cbn. fold (write_connected self c). fold (write_power self pw).
  destruct (w (history s) (write_connected self c)) as [v|mro msg|] eqn:H1; cbn.
  - destruct (w (history s ++ [(write_connected self c, Returns v)])%list
                (write_power self pw)) as [v2|mro msg|] eqn:H2; cbn;
      do 2 eexists; (split; [reflexivity|]);
      (split; [cbn; rewrite <- app_assoc; reflexivity|]);
      split; intros ->; reflexivity.
  - do 2 eexists. split; [reflexivity|]. split; [reflexivity|].
    split; intros ->; reflexivity.
  - do 2 eexists. split; [reflexivity|]. split; [reflexivity|].
    split; intros ->; reflexivity.
Qed.

(** C5 as stated fails: when the client raises on the first write, that
    write is the only one issued. *)
Lemma publish_two_writes_fails :
  filter is_write (history (snd (publish_status wildcard_topic 1 f7200 strict_client start)))
  = [(MqttPublish "chargepoint/#" "1" true,
      Raises ["ValueError"] "Publish topic cannot contain wildcards.")].
Proof. vm_compute. reflexivity. Qed.

(** C5 with a broker that accepts both writes: "1" and "7200.0". *)
Lemma publish_writes_witness :
  exists r s',
    publish_status logged_in 1 f7200 healthy_broker start = (r, s') /\
    history s' =
      [(MqttPublish "chargepoint/connected" "1" true, Returns PyNone);
       (MqttPublish "chargepoint/power" "7200.0" true, Returns PyNone)] /\
    (1 = 0 -> str_of_int 1 = "0") /\ (1 = 1 -> str_of_int 1 = "1").
Proof.
  destruct (publish_writes healthy_broker logged_in start 1 f7200 eq_refl)
    as (r & s' & Hrun & Hh & H0 & H1).
  exists r, s'. split; [exact Hrun|]. split; [|split; assumption].
  cbn in Hh. rewrite Hh. vm_compute. reflexivity.
Defined.

(** C6.  When an error is raised during a publish, [publish_status]
    returns normally, the turn of the loop goes on to
    [time.sleep(poll_interval)], and once that sleep returns the loop runs
    its next turn. *)
Theorem publish_error_is_swallowed w self s snap s1 :
  get_charger_status self w s = (Some (Val snap), s1) ->
  publish_fails w self (fst snap) (snd snap) s1 ->
  0 <= poll_interval self <= 9223372036 ->
  exists s2,
    publish_status self (fst snap) (snd snap) w s1 = (Some (Val tt), s2) /\
    cycle self w s = time_sleep (poll_interval self) w s2 /\
    forall n v,
      w (history s2) (Sleep (poll_interval self)) = Returns v ->
      while_true (S n) (cycle self) w s =
      while_true n (cycle self) w (slept s2 (poll_interval self) v).
Proof.
  intros Hpoll Hfail Hint.
  assert (Hpub : exists s2,
             publish_status self (fst snap) (snd snap) w s1 = (Some (Val tt), s2)).
  { unfold publish_status, try_except, bind, attribute, perform, log, ret, raise.
    fold (write_connected self (fst snap)). fold (write_power self (snd snap)).
    destruct Hfail as [Hc|[(mro & msg & H1)|(v & mro & msg & H1 & H2)]].
    - rewrite Hc. cbn. eexists. reflexivity.
    - destruct (mqtt_client self); cbn; [|eexists; reflexivity].
      rewrite H1. cbn. eexists. reflexivity.
    - destruct (mqtt_client self); cbn; [|eexists; reflexivity].
      rewrite H1. cbn. rewrite H2. cbn. eexists. reflexivity. }
  destruct Hpub as (s2 & Hpub). exists s2. split; [exact Hpub|].
  assert (Hcycle : cycle self w s = time_sleep (poll_interval self) w s2).
  { unfold cycle, bind at 1. rewrite Hpoll. unfold bind at 1. rewrite Hpub.
    reflexivity. }
  split; [exact Hcycle|].
  intros n v Hsleep. cbn [while_true]. unfold bind at 1. rewrite Hcycle.
  unfold time_sleep.
  replace (9223372036 <? poll_interval self) with false
    by (symmetry; apply Z.ltb_ge; lia).
  replace (poll_interval self <? 0) with false
    by (symmetry; apply Z.ltb_ge; lia).
  unfold bind, perform, ret. rewrite Hsleep. cbn. reflexivity.
Qed.

(** C6 with a broker client that raises on every publish. *)
Lemma publish_error_is_swallowed_witness :
  exists s1 s2,
    get_charger_status logged_in broker_down start = (Some (Val (1, f7200)), s1) /\
    publish_status logged_in 1 f7200 broker_down s1 = (Some (Val tt), s2) /\
    cycle logged_in broker_down start = time_sleep 60 broker_down s2 /\
    while_true 2 (cycle logged_in) broker_down start =
    while_true 1 (cycle logged_in) broker_down (slept s2 60 PyNone).
Proof.
  eexists.
  assert (Hpoll : get_charger_status logged_in broker_down start
                  = (Some (Val (1, f7200)),
                     snd (get_charger_status logged_in broker_down start)))
    by (vm_compute; reflexivity).
  destruct (publish_error_is_swallowed broker_down logged_in start (1, f7200) _ Hpoll)
    as (s2 & H1 & H2 & H3).
  - right. left. do 2 eexists. reflexivity.
  - cbn. lia.
  - exists s2. split; [exact Hpoll|]. split; [exact H1|]. split; [exact H2|].
    apply H3. reflexivity.
Defined.

Lemma tidy_ret {A} (a : A) : tidy (ret a).
Proof.
  intros w s. exists []. cbn. rewrite app_nil_r.
  repeat split; auto. left. split; [constructor|discriminate].
Qed.

Lemma tidy_raise {A} e : e <> KeyboardInterrupt -> tidy (@raise A e).
Proof.
  intros He w s. exists []. cbn. rewrite app_nil_r.
  repeat split; auto. left. split; [constructor|congruence].
Qed.

Lemma tidy_log l msg : tidy (log l msg).
Proof.
  intros w s. exists []. cbn. rewrite app_nil_r.
  repeat split; auto. left. split; [constructor|discriminate].
Qed.

Lemma tidy_perform c : loop_call c = true -> tidy (perform c).
Proof.
  intros Hc w s. exists [(c, w (history s) c)]. cbn.
  split; [reflexivity|]. split; [repeat constructor; exact Hc|].
  destruct (w (history s) c) eqn:Hr; cbn.
  - left. split; [repeat constructor|discriminate].
  - left. split; [repeat constructor|discriminate].
  - right. exists [], c. repeat split. constructor.
Qed.

Lemma tidy_bind {A B} (m : M A) (k : A -> M B) :
  tidy m -> (forall a, tidy (k a)) -> tidy (bind m k).
Proof.
  intros Hm Hk w s. unfold bind.
  destruct (Hm w s) as (ext & Hh & Hl & Hq).
  destruct (m w s) as [[[a|e]|] s1]; cbn in *.
  - destruct Hq as [[Hq _]|(ext' & c & _ & _ & Habs)]; [|discriminate].
    destruct (Hk a w s1) as (ext2 & Hh2 & Hl2 & Hq2).
    exists (ext ++ ext2)%list. rewrite Hh2, Hh, app_assoc.
    split; [reflexivity|]. split; [apply Forall_app; auto|].
    destruct Hq2 as [[Hq2 Hr]|(ext' & c & -> & Hq2 & Hr)].
    + left. split; [apply Forall_app; auto|exact Hr].
    + right. exists (ext ++ ext')%list, c. rewrite app_assoc.
      split; [reflexivity|]. split; [apply Forall_app; auto|exact Hr].
  - exists ext. split; [exact Hh|]. split; [exact Hl|]. carry_over Hq.
  - exists ext. split; [exact Hh|]. split; [exact Hl|]. carry_over Hq.
Qed.

Lemma tidy_try_except {A} (body : M A) catches handler :
  tidy body -> catches KeyboardInterrupt = false ->
  (forall e, tidy (handler e)) -> tidy (try_except body catches handler).
Proof.
  intros Hb Hc Hh w s. unfold try_except.
  destruct (Hb w s) as (ext & Hhist & Hl & Hq).
  destruct (body w s) as [[[a|e]|] s1]; cbn in *.
  - exists ext. split; [exact Hhist|]. split; assumption.
  - destruct (catches e) eqn:Hce.
    + destruct Hq as [[Hq _]|(ext' & c & _ & _ & Habs)].
      2:{ inversion Habs; subst. congruence. }
      destruct (Hh e w s1) as (ext2 & Hh2 & Hl2 & Hq2).
      exists (ext ++ ext2)%list. rewrite Hh2, Hhist, app_assoc.
      split; [reflexivity|]. split; [apply Forall_app; auto|].
      destruct Hq2 as [[Hq2 Hr]|(ext' & c & -> & Hq2 & Hr)].
      * left. split; [apply Forall_app; auto|exact Hr].
      * right. exists (ext ++ ext')%list, c. rewrite app_assoc.
        split; [reflexivity|]. split; [apply Forall_app; auto|exact Hr].
    + exists ext. split; [exact Hhist|]. split; assumption.
  - exists ext. split; [exact Hhist|]. split; assumption.
Qed.

Lemma tidy_lift {A} (r : res A) :
  (forall e, r = Exc e -> is_Exception e = true) -> tidy (lift r).
Proof.
  intros Hr. destruct r as [a|e]; cbn.
  - apply tidy_ret.
  - apply tidy_raise. intros ->. specialize (Hr _ eq_refl). discriminate.
Qed.

Lemma tidy_while_true n body : tidy body -> tidy (while_true n body).
Proof.
  intros Hb. induction n as [|n IH]; cbn.
  - intros w s. exists []. cbn. rewrite app_nil_r.
    repeat split; auto. left. split; [constructor|discriminate].
  - apply tidy_bind; auto.
Qed.

Lemma tidy_get_charger_status self : tidy (get_charger_status self).
Proof.
  unfold get_charger_status. apply tidy_try_except; [|reflexivity|].
  - apply tidy_bind.
    + unfold attribute. destruct (chargepoint self);
        [apply tidy_ret|apply tidy_raise; discriminate].
    + intros _. apply tidy_bind; [apply tidy_perform; reflexivity|].
      intros chargers. destruct (negb (truthy chargers)).
      * apply tidy_bind; [apply tidy_log|intros; apply tidy_ret].
      * apply tidy_bind; [apply tidy_lift, py_first_raises_error|].
        intros id. apply tidy_bind; [apply tidy_log|]. intros _.
        apply tidy_bind; [apply tidy_perform; reflexivity|]. intros status.
        apply tidy_bind; [apply tidy_lift, derive_raises_error|]. intros snap.
        apply tidy_bind; [apply tidy_log|intros; apply tidy_ret].
  - intros e. apply tidy_bind; [apply tidy_log|intros; apply tidy_ret].
Qed.

Lemma tidy_publish_status self c pw : tidy (publish_status self c pw).
Proof.
  unfold publish_status. apply tidy_try_except; [|reflexivity|].
  - apply tidy_bind.
    + unfold attribute. destruct (mqtt_client self);
        [apply tidy_ret|apply tidy_raise; discriminate].
    + intros _. apply tidy_bind; [apply tidy_perform; reflexivity|]. intros _.
      apply tidy_bind; [apply tidy_log|]. intros _.
      apply tidy_bind; [apply tidy_perform; reflexivity|]. intros _.
      apply tidy_log.
  - intros e. apply tidy_log.
Qed.

Lemma tidy_time_sleep seconds : tidy (time_sleep seconds).
Proof.
  unfold time_sleep.
  destruct (9223372036 <? seconds); [apply tidy_raise; discriminate|].
  destruct (seconds <? 0); [apply tidy_raise; discriminate|].
  apply tidy_bind; [apply tidy_perform; reflexivity|intros; apply tidy_ret].
Qed.

Lemma tidy_cycle self : tidy (cycle self).
Proof.
  unfold cycle. apply tidy_bind; [apply tidy_get_charger_status|]. intros snap.
  apply tidy_bind; [apply tidy_publish_status|]. intros _. apply tidy_time_sleep.
Qed.

Lemma init_cases env w s :
  history (snd (__init__ env w s)) = history s /\
  match fst (__init__ env w s) with
  | Some (Val m) => mqtt_client m = false /\ chargepoint m = false
  | Some (Exc e) => exit_status (Exc e) = 1
  | None => False
  end /\
  (set (getenv env "CHARGEPOINT_USERNAME") = false \/
   set (getenv env "CHARGEPOINT_PASSWORD") = false ->
   exists e, fst (__init__ env w s) = Some (Exc e)).
Proof.
  unfold __init__, py_int, bind, ret, raise, log, sys_exit.
  destruct (int_of_string (getenv_default env "MQTT_PORT" "1883")); cbn.
  2:{ repeat split. intros _. eexists. reflexivity. }
  destruct (int_of_string (getenv_default env "POLL_INTERVAL" "60")); cbn.
  2:{ repeat split. intros _. eexists. reflexivity. }
  destruct (set (getenv env "CHARGEPOINT_USERNAME")); cbn.
  2:{ repeat split. intros _. eexists. reflexivity. }
  destruct (set (getenv env "CHARGEPOINT_PASSWORD")); cbn.
  2:{ repeat split. intros _. eexists. reflexivity. }
  repeat split. intros [H|H]; discriminate.
Qed.

Lemma setup_mqtt_cases w self s :
  exists ext,
    history (snd (setup_mqtt self w s)) = (history s ++ ext)%list /\
    match fst (setup_mqtt self w s) with
    | Some (Val self') =>
        self' = with_mqtt_client self /\
        Forall startup_event ext /\ Forall passed ext /\ Forall quiet ext
    | Some (Exc e) => fatal e ext
    | None => False
    end.
Proof.
  unfold setup_mqtt, fatal, try_except, bind, perform, log, ret, raise, sys_exit.
  cbn.
  ask_world w.
  - (* the import succeeds *)
    ask_world w.
    + destruct (set (mqtt_username self) && set (mqtt_password self))%bool; cbn.
      * ask_world w; [|settle|settle].
        ask_world w; [|settle|settle].
        ask_world w; settle.
      * ask_world w; [|settle|settle].
        ask_world w; settle.
    + destruct (isinstance _ _) eqn:Hcatch; cbn; [|settle].
      ask_world w; [|settle|settle].
      destruct (set (mqtt_username self) && set (mqtt_password self))%bool; cbn.
      * ask_world w; [|settle|settle].
        ask_world w; [|settle|settle].
        ask_world w; settle.
      * ask_world w; [|settle|settle].
        ask_world w; settle.
    + settle.
  - (* the import fails *)
    destruct (isinstance _ _) eqn:Hcatch; cbn; [|settle].
    ask_world w; [|settle|settle].
    destruct (set (mqtt_username self) && set (mqtt_password self))%bool; cbn.
    + ask_world w; [|settle|settle].
      ask_world w; [|settle|settle].
      ask_world w; settle.
    + ask_world w; [|settle|settle].
      ask_world w; settle.
  - settle.
Qed.

Lemma setup_chargepoint_cases w self s :
  exists ext,
    history (snd (setup_chargepoint self w s)) = (history s ++ ext)%list /\
    match fst (setup_chargepoint self w s) with
    | Some (Val self') =>
        self' = with_chargepoint self /\
        Forall startup_event ext /\ Forall passed ext /\ Forall quiet ext
    | Some (Exc e) => fatal e ext
    | None => False
    end.
Proof.
  unfold setup_chargepoint, fatal, try_except, bind, perform, log, ret, raise,
    sys_exit.
  cbn. ask_world w; settle.
Qed.

Lemma run_eq w self n s :
  run self n w s =
  match setup_mqtt self w (announced s) with
  | (Some (Val m1), s1) =>
      match setup_chargepoint m1 w s1 with
      | (Some (Val m2), s2) => serve m2 n w s2
      | (Some (Exc e), s2) => (Some (Exc e), s2)
      | (None, s2) => (None, s2)
      end
  | (Some (Exc e), s1) => (Some (Exc e), s1)
  | (None, s1) => (None, s1)
  end.
Proof. reflexivity. Qed.

Lemma shutdown_cases w self s :
  mqtt_client self = true ->
  exists ext,
    history (snd (shutdown self w s)) = (history s ++ ext)%list /\
    Forall shutdown_event ext /\
    (forall v1 v2,
        w (history s) MqttLoopStop = Returns v1 ->
        w (history s ++ [(MqttLoopStop, Returns v1)])%list MqttDisconnect = Returns v2 ->
        ext = [(MqttLoopStop, Returns v1); (MqttDisconnect, Returns v2)] /\
        fst (shutdown self w s) = Some (Val tt)).
Proof.
  intros Hc. unfold shutdown, bind, perform, ret. rewrite Hc. cbn.
  destruct (w (history s) MqttLoopStop) as [v1| |] eqn:E1; cbn.
  - destruct (w (history s ++ [(MqttLoopStop, Returns v1)])%list MqttDisconnect)
      as [v2| |] eqn:E2; cbn;
      (eexists; split; [rewrite <- app_assoc; cbn; reflexivity|];
       split; [repeat constructor; cbn; auto|];
       intros v1' v2' H1 H2; inversion H1; subst; rewrite E2 in H2;
       try discriminate; inversion H2; subst; split; reflexivity).
  - eexists. split; [reflexivity|]. split; [repeat constructor; cbn; auto|].
    intros; discriminate.
  - eexists. split; [reflexivity|]. split; [repeat constructor; cbn; auto|].
    intros; discriminate.
Qed.

(** What [serve] leaves in the trace: the loop's events, then the
    shutdown's; the loop's outcome decides the rest. *)
Lemma serve_cases w self n s :
  mqtt_client self = true ->
  exists loop_ext stop_ext,
    history (snd (serve self n w s)) = (history s ++ loop_ext ++ stop_ext)%list /\
    Forall loop_event loop_ext /\ Forall shutdown_event stop_ext /\
    (Forall quiet loop_ext \/
     exists ext' c,
       loop_ext = (ext' ++ [(c, Interrupted)])%list /\ Forall quiet ext' /\
       forall v1 v2,
         w (history s ++ loop_ext)%list MqttLoopStop = Returns v1 ->
         w ((history s ++ loop_ext) ++ [(MqttLoopStop, Returns v1)])%list
           MqttDisconnect = Returns v2 ->
         stop_ext = [(MqttLoopStop, Returns v1); (MqttDisconnect, Returns v2)] /\
         fst (serve self n w s) = Some (Val tt)).
Proof.
  intros Hc. unfold serve, try_finally, try_except.
  destruct (tidy_while_true n _ (tidy_cycle self) w s) as (ext & Hh & Hl & Hq).
  destruct (while_true n (cycle self) w s) as [[[a|e]|] s1]; cbn [fst snd] in *.
  - destruct (shutdown_cases w self s1 Hc) as (ext2 & Hh2 & Hl2 & _).
    exists ext, ext2. split.
    { destruct (shutdown self w s1) as [[[[]|e2]|] s2]; cbn [snd] in *;
        rewrite Hh2, Hh, app_assoc; reflexivity. }
    split; [exact Hl|]. split; [exact Hl2|].
    left. destruct Hq as [[Hq _]|(ext' & c & _ & _ & Habs)]; [exact Hq|discriminate].
  - destruct e as [mro msg| |code]; cbn [is_KeyboardInterrupt].
    + destruct (shutdown_cases w self s1 Hc) as (ext2 & Hh2 & Hl2 & _).
      exists ext, ext2. split.
      { destruct (shutdown self w s1) as [[[[]|e2]|] s2]; cbn [snd] in *;
          rewrite Hh2, Hh, app_assoc; reflexivity. }
      split; [exact Hl|]. split; [exact Hl2|].
      left. destruct Hq as [[Hq _]|(ext' & c & _ & _ & Habs)]; [exact Hq|discriminate].
    + change (log INFO "Shutting down..." w s1)
        with (Some (Val tt),
              mkState (history s1) (logs s1 ++ [(INFO, "Shutting down...")])%list).
      cbv beta iota.
      set (s1' := mkState (history s1) _).
      destruct (shutdown_cases w self s1' Hc) as (ext2 & Hh2 & Hl2 & Hret).
      assert (Hs1 : history s1' = (history s ++ ext)%list) by (subst s1'; exact Hh).
      rewrite Hs1 in Hret, Hh2.
      destruct Hq as [[Hq Habs]|(ext' & c & He & Hq & _)]; [congruence|].
      destruct (shutdown self w s1') as [[[[]|e2]|] s2]; cbn [fst snd] in *.
      all: exists ext, ext2.
      all: (split; [rewrite Hh2, app_assoc; reflexivity|]).
      all: (split; [exact Hl|]); (split; [exact Hl2|]).
      all: right; exists ext', c; (split; [exact He|]); (split; [exact Hq|]).
      all: intros v1 v2 H1 H2; destruct (Hret v1 v2 H1 H2) as [-> Hr].
      all: (split; [reflexivity|]).
      all: first [reflexivity|discriminate].
    + destruct (shutdown_cases w self s1 Hc) as (ext2 & Hh2 & Hl2 & _).
      exists ext, ext2. split.
      { destruct (shutdown self w s1) as [[[[]|e2]|] s2]; cbn [snd] in *;
          rewrite Hh2, Hh, app_assoc; reflexivity. }
      split; [exact Hl|]. split; [exact Hl2|].
      left. destruct Hq as [[Hq _]|(ext' & c & _ & _ & Habs)]; [exact Hq|discriminate].
  - exists ext, []. rewrite app_nil_r. split; [exact Hh|].
    split; [exact Hl|]. split; [constructor|].
    left. destruct Hq as [[Hq _]|(ext' & c & _ & _ & Habs)]; [exact Hq|discriminate].
Qed.

Lemma main_eq env n w s :
  main env n w s =
  match __init__ env w s with
  | (Some (Val m), s0) => run m n w s0
  | (Some (Exc e), s0) => (Some (Exc e), s0)
  | (None, s0) => (None, s0)
  end.
Proof. reflexivity. Qed.

Lemma fatal_stopped_early e pre ext :
  Forall startup_event pre -> Forall passed pre -> fatal e ext ->
  stopped_early (Some (Exc e)) (pre ++ ext)%list.
Proof.
  intros Hs Hp (Hx & Hse & ext' & ev & -> & Hp' & Hlast).
  exists e. split; [reflexivity|]. split; [exact Hx|].
  split; [apply Forall_app; auto|].
  right. exists (pre ++ ext')%list, ev. rewrite app_assoc.
  split; [reflexivity|]. split; [apply Forall_app; auto|exact Hlast].
Qed.

Lemma main_cases env n w :
  stopped_early (fst (main env n w start)) (history (snd (main env n w start))) \/
  reached_loop w (fst (main env n w start)) (history (snd (main env n w start))).
Proof.
  rewrite main_eq.
  destruct (init_cases env w start) as (Hh0 & Hr0 & _).
  destruct (__init__ env w start) as [[[m|e]|] s0]; cbn [fst snd] in *.
  3:{ destruct Hr0. }
  2:{ left. exists e. split; [reflexivity|]. rewrite Hh0.
      split; [rewrite Hr0; discriminate|]. split; [constructor|]. left; reflexivity. }
  rewrite run_eq.
  destruct (setup_mqtt_cases w m (announced s0)) as (ext1 & Hh1 & Hr1).
  cbn [announced history] in Hh1. rewrite Hh0 in Hh1. cbn [app] in Hh1.
  destruct (setup_mqtt m w (announced s0)) as [[[m1|e]|] s1]; cbn [fst snd] in *.
  3:{ destruct Hr1. }
  2:{ left. rewrite Hh1. apply (fatal_stopped_early e [] ext1); auto. }
  destruct Hr1 as (-> & Hs1 & Hp1 & Hq1).
  destruct (setup_chargepoint_cases w (with_mqtt_client m) s1) as (ext2 & Hh2 & Hr2).
  destruct (setup_chargepoint (with_mqtt_client m) w s1) as [[[m2|e]|] s2];
    cbn [fst snd] in *.
  3:{ destruct Hr2. }
  2:{ left. rewrite Hh2, Hh1. apply fatal_stopped_early; auto. }
  destruct Hr2 as (-> & Hs2 & Hp2 & Hq2).
  right.
  destruct (serve_cases w (with_chargepoint (with_mqtt_client m)) n s2 eq_refl)
    as (lext & sext & Hh3 & Hl3 & Hs3 & Hq3).
  rewrite Hh2, Hh1 in Hh3, Hq3.
  exists (ext1 ++ ext2)%list, lext, sext.
  split; [exact Hh3|]. split; [apply Forall_app; auto|].
  split; [apply Forall_app; auto|]. split; [apply Forall_app; auto|].
  split; [exact Hl3|]. split; [exact Hs3|]. exact Hq3.
Qed.

Lemma startup_not_loop e : startup_event e -> loop_call (fst e) = false.
Proof. unfold startup_event. destruct (fst e); cbn; congruence. Qed.

Lemma loop_not_session e : loop_event e -> session_call (fst e) = false.
Proof. unfold loop_event. destruct (fst e); cbn; congruence. Qed.

Lemma shutdown_not_session e : shutdown_event e -> session_call (fst e) = false.
Proof. intros [H|H]; rewrite H; reflexivity. Qed.

Lemma failed_session_not_passed c mro msg :
  session_call c = true -> ~ passed (c, Raises mro msg).
Proof. unfold passed. cbn. intros ->. discriminate. Qed.

Lemma init_starts env port interval w s :
  starts_with env port interval ->
  exists m,
    __init__ env w s = (Some (Val m), s) /\
    mqtt_broker m = getenv_default env "MQTT_BROKER" "localhost" /\
    mqtt_port m = port /\
    cp_username m = getenv env "CHARGEPOINT_USERNAME" /\
    cp_password m = getenv env "CHARGEPOINT_PASSWORD" /\
    mqtt_client m = false /\ chargepoint m = false.
Proof.
  intros (Hu & Hp & Hport & Hint).
  unfold __init__, py_int, bind, ret, getenv in *.
  rewrite Hport, Hint. cbn. rewrite Hu, Hp. cbn.
  eexists. split; [reflexivity|]. cbn. repeat split.
Qed.

(** The trace of [setup_mqtt] when only the connect call is refused. *)
Lemma setup_mqtt_refused w self s :
  refuses is_connect w ->
  exists pre mro msg,
    fst (setup_mqtt self w s) = Some (Exc (SystemExit 1)) /\
    history (snd (setup_mqtt self w s)) =
      (history s ++ pre ++
       [(MqttConnect (mqtt_broker self) (mqtt_port self) 60, Raises mro msg)])%list /\
    Forall (fun e => loop_call (fst e) = false /\ is_connect (fst e) = false) pre.
Proof.
  intros Hw.
  unfold setup_mqtt, try_except, bind, perform, log, ret, raise, sys_exit. cbn.
  destruct (Hw (history s) ImportCallbackAPIVersion eq_refl) as [v0 ->]. cbn.
  match goal with |- context [w ?h (MqttClient ?i ?b)] =>
    destruct (Hw h (MqttClient i b) eq_refl) as [v1 ->] end. cbn.
  destruct (set (mqtt_username self) && set (mqtt_password self))%bool; cbn.
  - match goal with |- context [w ?h (UsernamePwSet ?u ?p)] =>
      destruct (Hw h (UsernamePwSet u p) eq_refl) as [v2 ->] end. cbn.
    match goal with |- context [w ?h (MqttConnect ?a ?b ?k)] =>
      destruct (Hw h (MqttConnect a b k) eq_refl) as (mro & msg & ->) end. cbn.
    eexists [_; _; _], mro, msg. split; [reflexivity|].
    split; [rewrite <- ?app_assoc; reflexivity|]. repeat constructor.
  - match goal with |- context [w ?h (MqttConnect ?a ?b ?k)] =>
      destruct (Hw h (MqttConnect a b k) eq_refl) as (mro & msg & ->) end. cbn.
    eexists [_; _], mro, msg. split; [reflexivity|].
    split; [rewrite <- ?app_assoc; reflexivity|]. repeat constructor.
Qed.

(** The trace of [setup_mqtt] when the broker accepts the client. *)
Lemma setup_mqtt_accepted w self s :
  refuses is_login w ->
  exists pre,
    fst (setup_mqtt self w s) = Some (Val (with_mqtt_client self)) /\
    history (snd (setup_mqtt self w s)) = (history s ++ pre)%list /\
    Forall (fun e => loop_call (fst e) = false /\ is_login (fst e) = false) pre.
Proof.
  intros Hw.
  unfold setup_mqtt, try_except, bind, perform, log, ret, raise, sys_exit. cbn.
  destruct (Hw (history s) ImportCallbackAPIVersion eq_refl) as [v0 ->]. cbn.
  match goal with |- context [w ?h (MqttClient ?i ?b)] =>
    destruct (Hw h (MqttClient i b) eq_refl) as [v1 ->] end. cbn.
  destruct (set (mqtt_username self) && set (mqtt_password self))%bool; cbn.
  - match goal with |- context [w ?h (UsernamePwSet ?u ?p)] =>
      destruct (Hw h (UsernamePwSet u p) eq_refl) as [v2 ->] end. cbn.
    match goal with |- context [w ?h (MqttConnect ?a ?b ?k)] =>
      destruct (Hw h (MqttConnect a b k) eq_refl) as [v3 ->] end. cbn.
    match goal with |- context [w ?h MqttLoopStart] =>
      destruct (Hw h MqttLoopStart eq_refl) as [v4 ->] end. cbn.
    eexists [_; _; _; _; _]. split; [reflexivity|].
    split; [rewrite <- ?app_assoc; reflexivity|]. repeat constructor.
  - match goal with |- context [w ?h (MqttConnect ?a ?b ?k)] =>
      destruct (Hw h (MqttConnect a b k) eq_refl) as [v3 ->] end. cbn.
    match goal with |- context [w ?h MqttLoopStart] =>
      destruct (Hw h MqttLoopStart eq_refl) as [v4 ->] end. cbn.
    eexists [_; _; _; _]. split; [reflexivity|].
    split; [rewrite <- ?app_assoc; reflexivity|]. repeat constructor.
Qed.

(** The trace of [setup_chargepoint] when the login is refused. *)
Lemma setup_chargepoint_refused w self s :
  refuses is_login w ->
  exists mro msg,
    fst (setup_chargepoint self w s) = Some (Exc (SystemExit 1)) /\
    history (snd (setup_chargepoint self w s)) =
      (history s ++
       [(ChargePointLogin (cp_username self) (cp_password self), Raises mro msg)])%list.
Proof.
  intros Hw.
  unfold setup_chargepoint, try_except, bind, perform, log, ret, raise, sys_exit. cbn.
  destruct (Hw (history s) (ChargePointLogin (cp_username self) (cp_password self))
              eq_refl) as (mro & msg & ->). cbn.
  exists mro, msg. split; reflexivity.
Qed.

(** C8.  If a required credential is unset (absent or empty), the process
    ends with status 1 without having made a single call.  If the world
    refuses the broker connection (every [connect] raises) while the
    other start-up calls return, the process does attempt the connection,
    with the configured host and port, and ends right there through
    [sys.exit(1)]: the failed [connect] is its last call, it was the first
    [connect], and no call of the polling loop was made.  Likewise when
    the world refuses the ChargePoint login: the login is attempted once,
    with the configured credentials, and the process ends there with
    status 1.  In any world at all, a connect, loop start or login that
    raised is the last thing the process did. *)
Theorem startup_failure_is_fatal env n w :
  (set (getenv env "CHARGEPOINT_USERNAME") = false \/
   set (getenv env "CHARGEPOINT_PASSWORD") = false ->
   exists e s,
     main env n w start = (Some (Exc e), s) /\
     exit_status (Exc e) = 1 /\ history s = []) /\
  (forall port interval,
      starts_with env port interval -> refuses is_connect w ->
      dies_at is_connect
        (MqttConnect (getenv_default env "MQTT_BROKER" "localhost") port 60)
        (main env n w start)) /\
  (forall port interval,
      starts_with env port interval -> refuses is_login w ->
      dies_at is_login
        (ChargePointLogin (getenv env "CHARGEPOINT_USERNAME")
                          (getenv env "CHARGEPOINT_PASSWORD"))
        (main env n w start)) /\
  (forall c mro msg,
      In (c, Raises mro msg) (history (snd (main env n w start))) ->
      session_call c = true ->
      fst (main env n w start) = Some (Exc (SystemExit 1)) /\
      exit_status (Exc (SystemExit 1)) = 1 /\
      exists pre,
        history (snd (main env n w start)) = (pre ++ [(c, Raises mro msg)])%list /\
        Forall (fun e => loop_call (fst e) = false) pre).
Proof.
  split; [|split; [|split]].
  - intros Hcred. rewrite main_eq.
    destruct (init_cases env w start) as (Hh0 & Hr0 & Hc0).
    destruct (Hc0 Hcred) as (e & He).
    destruct (__init__ env w start) as [r s0]. cbn [fst snd] in *. subst r.
    exists e, s0. auto.
  - intros port interval Henv Hw. rewrite main_eq.
    destruct (init_starts env port interval w start Henv)
      as (m & -> & Hb & Hp & _). rewrite run_eq.
    destruct (setup_mqtt_refused w m (announced start) Hw)
      as (pre & mro & msg & Hr & Hh & Hpre).
    destruct (setup_mqtt m w (announced start)) as [r s1]. cbn [fst snd] in *.
    subst r. rewrite Hb, Hp in Hh. cbn in Hh.
    split; [reflexivity|]. split; [reflexivity|].
    exists pre, mro, msg. split; [exact Hh|exact Hpre].
  - intros port interval Henv Hw. rewrite main_eq.
    destruct (init_starts env port interval w start Henv)
      as (m & -> & _ & _ & Hu & Hp & _). rewrite run_eq.
    destruct (setup_mqtt_accepted w m (announced start) Hw) as (pre & Hr & Hh & Hpre).
    destruct (setup_mqtt m w (announced start)) as [r s1]. cbn [fst snd] in *.
    subst r.
    destruct (setup_chargepoint_refused w (with_mqtt_client m) s1 Hw)
      as (mro & msg & Hr2 & Hh2).
    destruct (setup_chargepoint (with_mqtt_client m) w s1) as [r2 s2].
    cbn [fst snd] in *. subst r2. rewrite Hh in Hh2. cbn in Hh2.
    rewrite Hu, Hp in Hh2.
    split; [reflexivity|]. split; [reflexivity|].
    exists pre, mro, msg. split; [exact Hh2|exact Hpre].
  - intros c mro msg Hin Hc.
    destruct (main_cases env n w) as [(e & Hr & Hx & Hs & Hh)|
                                      (up & lext & sext & Hh & Hs & Hp & _ & Hl & Hsd & _)].
    + destruct Hh as [Hh|(pre & ev & Hh & Hp & Hlast)].
      * rewrite Hh in Hin. destruct Hin.
      * rewrite Hh in Hin, Hs. apply in_app_or in Hin. destruct Hin as [Hin|[Heq|[]]]; [|subst ev].
        -- rewrite Forall_forall in Hp.
           destruct (failed_session_not_passed c mro msg Hc (Hp _ Hin)).
        -- rewrite (Hlast Hc eq_refl) in Hr. split; [exact Hr|].
           split; [reflexivity|]. exists pre. split; [exact Hh|].
           apply Forall_app in Hs. destruct Hs as [Hs _].
           eapply Forall_impl; [|exact Hs]. apply startup_not_loop.
    + exfalso. rewrite Hh in Hin.
      apply in_app_or in Hin. destruct Hin as [Hin|Hin].
      * rewrite Forall_forall in Hp.
        exact (failed_session_not_passed c mro msg Hc (Hp _ Hin)).
      * apply in_app_or in Hin. destruct Hin as [Hin|Hin].
        -- rewrite Forall_forall in Hl. apply Hl, loop_not_session in Hin.
           cbn in Hin. congruence.
        -- rewrite Forall_forall in Hsd. apply Hsd, shutdown_not_session in Hin.
           cbn in Hin. congruence.
Qed.

(** C8 with the password missing, with a broker that refuses the
    connection, and with a login that is rejected. *)
Lemma startup_failure_is_fatal_witness :
  (exists e s,
     main no_password 3 healthy_broker start = (Some (Exc e), s) /\
     exit_status (Exc e) = 1 /\ history s = []) /\
  dies_at is_connect (MqttConnect "localhost" 1883 60)
    (main credentials 3 broker_refuses start) /\
  dies_at is_login (ChargePointLogin (Some "user") (Some "secret"))
    (main credentials 3 login_refused start) /\
  (fst (main credentials 3 broker_refuses start) = Some (Exc (SystemExit 1)) /\
   exit_status (Exc (SystemExit 1)) = 1 /\
   exists pre,
     history (snd (main credentials 3 broker_refuses start)) =
       (pre ++ [(MqttConnect "localhost" 1883 60,
                 Raises ["ConnectionRefusedError"; "ConnectionError"; "OSError"]
                        "Connection refused")])%list /\
     Forall (fun e => loop_call (fst e) = false) pre).
Proof.
  split; [|split; [|split]].
  - apply (proj1 (startup_failure_is_fatal no_password 3 healthy_broker)).
    right. reflexivity.
  - apply (proj1 (proj2 (startup_failure_is_fatal credentials 3 broker_refuses))
             1883 60).
    + repeat split.
    + intros h c Hc. destruct c; try discriminate; cbn; eauto.
  - apply (proj1 (proj2 (proj2 (startup_failure_is_fatal credentials 3 login_refused)))
             1883 60).
    + repeat split.
    + intros h c Hc. destruct c; try discriminate; cbn; eauto.
  - apply (proj2 (proj2 (proj2 (startup_failure_is_fatal credentials 3 broker_refuses)))).
    + vm_compute. right. right. left. reflexivity.
    + reflexivity.
Defined.

(** C9.  If the interrupt signal arrives during a sleep of the loop (and
    the client's [loop_stop] and [disconnect] return), [main] returns, so
    the process exits with status 0, and all that follows the interrupted
    sleep is the [loop_stop] call and then the [disconnect] call: no
    further publish. *)
Theorem interrupt_in_sleep_shuts_down env n w seconds :
  (forall h, exists v, w h MqttLoopStop = Returns v) ->
  (forall h, exists v, w h MqttDisconnect = Returns v) ->
  In (Sleep seconds, Interrupted) (history (snd (main env n w start))) ->
  fst (main env n w start) = Some (Val tt) /\
  exit_status (Val tt) = 0 /\
  exists pre v1 v2,
    history (snd (main env n w start)) =
      (pre ++ [(Sleep seconds, Interrupted);
               (MqttLoopStop, Returns v1); (MqttDisconnect, Returns v2)])%list /\
    Forall quiet pre.
Proof.
  intros Hstop Hdisc Hin.
  destruct (main_cases env n w) as [(e & Hr & Hx & Hs & Hh)|
                                    (up & lext & sext & Hh & Hs & _ & Hq & Hl & Hsd & Hint)].
  - exfalso. rewrite Forall_forall in Hs. specialize (Hs _ Hin). discriminate.
  - rewrite Hh in Hin.
    assert (Hup : ~ In (Sleep seconds, Interrupted) up).
    { intros H. rewrite Forall_forall in Hq. specialize (Hq _ H). discriminate. }
    assert (Hsext : ~ In (Sleep seconds, Interrupted) sext).
    { intros H. rewrite Forall_forall in Hsd. destruct (Hsd _ H); discriminate. }
    apply in_app_or in Hin. destruct Hin as [Hin|Hin]; [contradiction|].
    apply in_app_or in Hin. destruct Hin as [Hin|Hin]; [|contradiction].
    destruct Hint as [Hquiet|(ext' & c & -> & Hq' & Hret)].
    + exfalso. rewrite Forall_forall in Hquiet. specialize (Hquiet _ Hin).
      discriminate.
    + destruct (Hstop (up ++ ext' ++ [(c, Interrupted)])%list) as (v1 & H1).
      destruct (Hdisc ((up ++ ext' ++ [(c, Interrupted)])
                         ++ [(MqttLoopStop, Returns v1)])%list) as (v2 & H2).
      destruct (Hret v1 v2 H1 H2) as (-> & Hr).
      split; [exact Hr|]. split; [reflexivity|].
      apply in_app_or in Hin. destruct Hin as [Hin|[Heq|[]]].
      { exfalso. rewrite Forall_forall in Hq'. specialize (Hq' _ Hin).
        discriminate. }
      inversion Heq; subst c.
      exists (up ++ ext')%list, v1, v2. split.
      * rewrite Hh, <- !app_assoc. reflexivity.
      * apply Forall_app; auto.
Qed.

(** C9 with the interrupt arriving in the third sleep. *)
Lemma interrupt_in_sleep_shuts_down_witness :
  fst (main credentials 5 interrupt_third_sleep start) = Some (Val tt) /\
  exit_status (Val tt) = 0 /\
  exists pre v1 v2,
    history (snd (main credentials 5 interrupt_third_sleep start)) =
      (pre ++ [(Sleep 60, Interrupted);
               (MqttLoopStop, Returns v1); (MqttDisconnect, Returns v2)])%list /\
    Forall quiet pre.
Proof.
  apply (interrupt_in_sleep_shuts_down credentials 5 interrupt_third_sleep 60).
  - intros h. exists PyNone. reflexivity.
  - intros h. exists PyNone. reflexivity.
  - vm_compute. do 19 right. left. reflexivity.
Defined.

(** ** The connection callbacks and the end-to-end scenarios *)

(** The callbacks only log: a refusal reported by the broker after
    [connect] returned makes no call and raises nothing. *)
Lemma callbacks_only_log rc w s :
  fst (_on_mqtt_connect rc w s) = Some (Val tt) /\
  history (snd (_on_mqtt_connect rc w s)) = history s /\
  fst (_on_mqtt_disconnect rc w s) = Some (Val tt) /\
  history (snd (_on_mqtt_disconnect rc w s)) = history s.
Proof.
  unfold _on_mqtt_connect, _on_mqtt_disconnect.
  destruct (rc =? 0); cbn; repeat split.
Qed.

(** Scenario A: [{status: "CHARGING", power: 7.2}] gives "1" and "7200.0". *)
Example scenario_charging :
  written (history (snd (cycle logged_in (upstream charging_7_2) start)))
  = [("chargepoint/connected", "1"); ("chargepoint/power", "7200.0")].
Proof. vm_compute. reflexivity. Qed.

(** Scenario B: [{status: "AVAILABLE", power: 0}] gives "0" and "0.0". *)
Example scenario_available :
  written (history (snd (cycle logged_in (upstream available_idle) start)))
  = [("chargepoint/connected", "0"); ("chargepoint/power", "0.0")].
Proof. vm_compute. reflexivity. Qed.

(** Scenario C: the listing call raises; "0" and "0.0" are published and
    the turn ends in the sleep. *)
Example scenario_unreachable :
  written (history (snd (cycle logged_in unreachable start)))
  = [("chargepoint/connected", "0"); ("chargepoint/power", "0.0")] /\
  fst (cycle logged_in unreachable start) = Some (Val tt).
Proof. vm_compute. split; reflexivity. Qed.

(** ** Further properties *)

Lemma events_since_app s s' ext :
  history s' = (history s ++ ext)%list -> events_since s s' = ext.
Proof.
  intros H. unfold events_since. rewrite H.
  rewrite skipn_app, skipn_all, Nat.sub_diag. reflexivity.
Qed.

Lemma logged_since_app s s' ext :
  logs s' = (logs s ++ ext)%list -> logged_since s s' = ext.
Proof.
  intros H. unfold logged_since. rewrite H.
  rewrite skipn_app, skipn_all, Nat.sub_diag. reflexivity.
Qed.

(** X1.  [__init__] makes no call.  It reads MQTT_PORT and POLL_INTERVAL
    with [int()] before it looks at the credentials: if either is not an
    integer literal it raises [ValueError], without the log line about the
    credentials, whether or not they are set.  Otherwise it exits with
    [sys.exit(1)] and one ERROR record when a credential is unset or
    empty, and else returns a monitor that has the two integers, no session
    and no client. *)
Theorem init_outcome env w s :
  history (snd (__init__ env w s)) = history s /\
  match int_of_string (getenv_default env "MQTT_PORT" "1883"),
        int_of_string (getenv_default env "POLL_INTERVAL" "60") with
  | Some port, Some interval =>
      if configured env
      then exists m,
             fst (__init__ env w s) = Some (Val m) /\
             mqtt_port m = port /\ poll_interval m = interval /\
             cp_username m = getenv env "CHARGEPOINT_USERNAME" /\
             cp_password m = getenv env "CHARGEPOINT_PASSWORD" /\
             chargepoint m = false /\ mqtt_client m = false /\
             logs (snd (__init__ env w s)) = logs s
      else fst (__init__ env w s) = Some (Exc (SystemExit 1)) /\
           logged_since s (snd (__init__ env w s)) =
           [(ERROR, "CHARGEPOINT_USERNAME and CHARGEPOINT_PASSWORD must be set")]
  | _, _ =>
      exists msg,
        fst (__init__ env w s) = Some (Exc (ValueError msg)) /\
        logs (snd (__init__ env w s)) = logs s
  end.
Proof.
  unfold __init__, py_int, bind, ret, raise, log, sys_exit, configured.
  destruct (int_of_string (getenv_default env "MQTT_PORT" "1883")); cbn.
  2:{ split; [reflexivity|]. eexists. split; reflexivity. }
  destruct (int_of_string (getenv_default env "POLL_INTERVAL" "60")); cbn.
  2:{ split; [reflexivity|]. eexists. split; reflexivity. }
  destruct (set (getenv env "CHARGEPOINT_USERNAME")); cbn.
  - destruct (set (getenv env "CHARGEPOINT_PASSWORD")); cbn.
    + split; [reflexivity|]. eexists. repeat split.
    + split; [reflexivity|]. split; [reflexivity|].
      apply logged_since_app. reflexivity.
  - split; [reflexivity|]. split; [reflexivity|].
    apply logged_since_app. reflexivity.
Qed.

(** X2.  The connection callbacks never raise and make no call.
    [_on_mqtt_connect] logs one record, at INFO for return code 0 and at
    ERROR for any other code; [_on_mqtt_disconnect] logs one WARNING for a
    non-zero code and nothing for 0. *)
Theorem callbacks_log_by_return_code rc w s :
  fst (_on_mqtt_connect rc w s) = Some (Val tt) /\
  history (snd (_on_mqtt_connect rc w s)) = history s /\
  (exists msg,
     logged_since s (snd (_on_mqtt_connect rc w s)) =
     [(if rc =? 0 then INFO else ERROR, msg)]) /\
  fst (_on_mqtt_disconnect rc w s) = Some (Val tt) /\
  history (snd (_on_mqtt_disconnect rc w s)) = history s /\
  logged_since s (snd (_on_mqtt_disconnect rc w s)) =
  (if rc =? 0 then []
   else [(WARNING, "Unexpected MQTT disconnection. Code: {rc}")]).
Proof.
  unfold _on_mqtt_connect, _on_mqtt_disconnect.
  destruct (rc =? 0); cbn.
  - repeat split.
    + eexists. apply logged_since_app. reflexivity.
    + apply logged_since_app. rewrite app_nil_r. reflexivity.
  - repeat split.
    + eexists. apply logged_since_app. reflexivity.
    + apply logged_since_app. reflexivity.
Qed.

(** X3.  Called on a monitor whose client or session was never set up,
    the two operations still return: [publish_status] writes nothing,
    [get_charger_status] asks nothing and answers the default pair; each
    logs one ERROR record. *)
Theorem missing_handles_are_absorbed w s c pw self :
  (mqtt_client self = false ->
   fst (publish_status self c pw w s) = Some (Val tt) /\
   history (snd (publish_status self c pw w s)) = history s /\
   logged_since s (snd (publish_status self c pw w s)) =
   [(ERROR, "Failed to publish to MQTT: {e}")]) /\
  (chargepoint self = false ->
   fst (get_charger_status self w s) = Some (Val default_snapshot) /\
   history (snd (get_charger_status self w s)) = history s /\
   logged_since s (snd (get_charger_status self w s)) =
   [(ERROR, "Error getting charger status: {e}")]).
Proof.
  split; intros H.
  - unfold publish_status, try_except, bind, attribute, raise, log. rewrite H. cbn.
    repeat split. apply logged_since_app. reflexivity.
  - unfold get_charger_status, try_except, bind, attribute, raise, log, ret.
    rewrite H. cbn. repeat split. apply logged_since_app. reflexivity.
Qed.

Lemma missing_handles_are_absorbed_witness :
  fst (publish_status fresh 1 f7200 healthy_broker start) = Some (Val tt) /\
  history (snd (publish_status fresh 1 f7200 healthy_broker start)) = [] /\
  fst (get_charger_status fresh healthy_broker start) = Some (Val default_snapshot) /\
  history (snd (get_charger_status fresh healthy_broker start)) = [].
Proof.
  destruct (missing_handles_are_absorbed healthy_broker start 1 f7200 fresh)
    as [Hp Hg].
  destruct (Hp eq_refl) as (H1 & H2 & _). destruct (Hg eq_refl) as (H3 & H4 & _).
  repeat split; assumption.
Defined.

(** X4.  A power field that is falsy ([None], [0], [0.0], [False], an
    empty string, list or dict) counts as 0: the poll returns 0.0 watts
    next to the flag read from the status, also for values [float()]
    would reject. *)
Theorem falsy_power_is_zero w self s reply c p :
  chargepoint self = true -> serves w s reply ->
  connected_of reply = Val c ->
  power_field reply = Some p -> truthy p = false ->
  polled self w s = Some (c, fzero).
Proof.
  intros Hcp Hs Hc Hp Ht. unfold polled. rewrite (poll_of_reply _ _ _ _ Hcp Hs).
  unfold power_field in Hp. destruct reply; try discriminate.
  unfold derive, power_watts_of, power_kw_of, py_get. rewrite Hc, Hp.
  unfold py_or. rewrite Ht. reflexivity.
Qed.

Lemma falsy_power_is_zero_witness :
  polled logged_in (upstream charging_empty_power) start = Some (1, fzero) /\
  py_float (PyStr EmptyString) = Exc (ValueError "could not convert string to float").
Proof.
  split.
  - apply (falsy_power_is_zero (upstream charging_empty_power) logged_in start
             charging_empty_power 1 (PyStr EmptyString));
      try reflexivity. apply upstream_serves.
  - reflexivity.
Defined.

(** X5.  A poll asks for the listing at most once and for the status of
    one charger at most once, and that charger is the first entry of the
    listing it has just received; further entries are never looked at.
    It makes no other call. *)
Theorem poll_asks_first_charger_only w self s :
  history (snd (get_charger_status self w s)) =
    (history s ++ events_since s (snd (get_charger_status self w s)))%list /\
  (events_since s (snd (get_charger_status self w s)) = [] \/
   (exists r,
      events_since s (snd (get_charger_status self w s)) = [(GetHomeChargers, r)]) \/
   (exists chargers device_id r,
      events_since s (snd (get_charger_status self w s)) =
        [(GetHomeChargers, Returns chargers); (GetChargingStatus device_id, r)] /\
      truthy chargers = true /\ py_first chargers = Val device_id)).
Proof.
  assert (H : exists ext,
             history (snd (get_charger_status self w s)) = (history s ++ ext)%list /\
             (ext = [] \/ (exists r, ext = [(GetHomeChargers, r)]) \/
              (exists chargers device_id r,
                 ext = [(GetHomeChargers, Returns chargers);
                        (GetChargingStatus device_id, r)] /\
                 truthy chargers = true /\ py_first chargers = Val device_id))).
  { unfold get_charger_status, try_except, bind, attribute, perform, lift, log,
      ret, raise.
    destruct (chargepoint self); cbn.
    2:{ exists []. rewrite app_nil_r. auto. }
    destruct (w (history s) GetHomeChargers) as [chargers|mro msg|] eqn:Hl; cbn;
      try (eexists; split; [reflexivity|]; right; left; eexists; reflexivity).
    destruct (truthy chargers) eqn:Ht; cbn;
      try (eexists; split; [reflexivity|]; right; left; eexists; reflexivity).
    destruct (py_first chargers) as [id|e] eqn:Hf; cbn.
    2:{ rewrite (py_first_raises_error _ _ Hf). cbn.
        eexists; split; [reflexivity|]; right; left; eexists; reflexivity. }
    exists [(GetHomeChargers, Returns chargers);
            (GetChargingStatus id,
             w (history s ++ [(GetHomeChargers, Returns chargers)])%list
               (GetChargingStatus id))].
    split.
    - destruct (w (history s ++ [(GetHomeChargers, Returns chargers)])%list
                  (GetChargingStatus id)) as [reply|mro msg|]; cbn;
        try (rewrite <- app_assoc; reflexivity).
      destruct (derive reply) as [snap|e] eqn:Hd; cbn.
      + rewrite <- app_assoc; reflexivity.
      + rewrite (derive_raises_error _ _ Hd). cbn. rewrite <- app_assoc; reflexivity.
    - right. right. do 3 eexists. split; [reflexivity|]. auto. }
  destruct H as (ext & Hh & Hc). rewrite (events_since_app _ _ _ Hh). auto.
Qed.

(** X6.  The log tells an empty listing from a failure: a poll that found
    no charger adds one WARNING record and no ERROR; a poll that derived
    its pair adds a DEBUG and an INFO record; a poll in which an exception
    was caught ends its records with one ERROR and returns the default
    pair. *)
Theorem poll_log_levels w self s :
  chargepoint self = true -> never_interrupts w ->
  exists snap,
    polled self w s = Some snap /\
    ((exists chargers,
        w (history s) GetHomeChargers = Returns chargers /\
        truthy chargers = false /\ snap = default_snapshot /\
        logged_since s (snd (get_charger_status self w s)) =
        [(WARNING, "No home chargers found")]) \/
     (exists reply,
        serves w s reply /\ derive reply = Val snap /\
        logged_since s (snd (get_charger_status self w s)) =
        [(DEBUG, "Monitoring device_id: {device_id}");
         (INFO, "Charger status: connected={connected}, power={power_watts}W")]) \/
     (snap = default_snapshot /\
      ((exists mro msg, w (history s) GetHomeChargers = Raises mro msg) \/
       fails_after_listing w s) /\
      exists before,
        logged_since s (snd (get_charger_status self w s)) =
        (before ++ [(ERROR, "Error getting charger status: {e}")])%list /\
        Forall (fun r => fst r = DEBUG) before)).
Proof.
  intros Hcp Hw. unfold polled.
  unfold get_charger_status, try_except, bind, attribute, perform, lift, log,
    ret, raise.
  rewrite Hcp. cbn.
  destruct (w (history s) GetHomeChargers) as [chargers|mro msg|] eqn:Hl; cbn.
  3:{ destruct (Hw _ _ Hl). }
  2:{ eexists. split; [reflexivity|]. right. right. split; [reflexivity|].
      split; [left; eauto|]. exists []. split; [|constructor].
      apply logged_since_app. reflexivity. }
  destruct (truthy chargers) eqn:Ht; cbn.
  2:{ eexists. split; [reflexivity|]. left. exists chargers.
      repeat split; auto. apply logged_since_app. reflexivity. }
  destruct (py_first chargers) as [id|e] eqn:Hf; cbn.
  2:{ rewrite (py_first_raises_error _ _ Hf). cbn.
      eexists. split; [reflexivity|]. right. right. split; [reflexivity|].
      split; [right; eapply first_charger_fails; eauto|].
      exists []. split; [|constructor]. apply logged_since_app. reflexivity. }
  destruct (w (history s ++ [(GetHomeChargers, Returns chargers)])%list
              (GetChargingStatus id)) as [reply|mro msg|] eqn:Hs; cbn.
  3:{ destruct (Hw _ _ Hs). }
  2:{ eexists. split; [reflexivity|]. right. right. split; [reflexivity|].
      split; [right; eapply status_call_raises; eauto|].
      exists [(DEBUG, "Monitoring device_id: {device_id}")].
      split; [|repeat constructor].
      apply logged_since_app. cbn. rewrite <- ?app_assoc. reflexivity. }
  assert (Hserves : serves w s reply) by (exists chargers, id; auto).
  destruct (derive reply) as [snap|e] eqn:Hd; cbn.
  - exists snap. split; [reflexivity|]. right. left. exists reply.
    split; [exact Hserves|]. split; [exact Hd|].
    apply logged_since_app. cbn. rewrite <- ?app_assoc. reflexivity.
  - rewrite (derive_raises_error _ _ Hd). cbn.
    eexists. split; [reflexivity|]. right. right. split; [reflexivity|]. split.
    + right. destruct (derive_cases reply) as [(c & x & _ & _ & Hv)|(e' & He' & Hwhy)];
        [congruence|].
      destruct Hwhy as [Hc|[(c & Hc) Hp]].
      * eapply status_unreadable; eauto.
      * eapply power_unreadable; eauto.
    + exists [(DEBUG, "Monitoring device_id: {device_id}")].
      split; [|repeat constructor].
      apply logged_since_app. cbn. rewrite <- ?app_assoc. reflexivity.
Qed.

Lemma poll_log_levels_witness :
  polled logged_in no_charger_account start = Some default_snapshot /\
  logged_since start (snd (get_charger_status logged_in no_charger_account start)) =
  [(WARNING, "No home chargers found")] /\
  exists snap,
    polled logged_in no_charger_account start = Some snap /\
    ((exists chargers,
        no_charger_account (history start) GetHomeChargers = Returns chargers /\
        truthy chargers = false /\ snap = default_snapshot /\
        logged_since start (snd (get_charger_status logged_in no_charger_account start)) =
        [(WARNING, "No home chargers found")]) \/
     (exists reply,
        serves no_charger_account start reply /\ derive reply = Val snap /\
        logged_since start (snd (get_charger_status logged_in no_charger_account start)) =
        [(DEBUG, "Monitoring device_id: {device_id}");
         (INFO, "Charger status: connected={connected}, power={power_watts}W")]) \/
     (snap = default_snapshot /\
      ((exists mro msg, no_charger_account (history start) GetHomeChargers = Raises mro msg) \/
       fails_after_listing no_charger_account start) /\
      exists before,
        logged_since start (snd (get_charger_status logged_in no_charger_account start)) =
        (before ++ [(ERROR, "Error getting charger status: {e}")])%list /\
        Forall (fun r => fst r = DEBUG) before)).
Proof.
  split; [reflexivity|]. split; [reflexivity|].
  apply (poll_log_levels no_charger_account logged_in start eq_refl).
  intros h c. unfold no_charger_account. destruct c; discriminate.
Defined.

(** X8.  When [setup_mqtt] returns, it has wired the client in this order:
    [username_pw_set] with the configured pair if, and only if, both
    MQTT_USERNAME and MQTT_PASSWORD are set and non-empty; then one
    [connect] to the configured host and port with keep-alive 60; then one
    [loop_start].  The monitor it returns is the old one with the client
    stored. *)
Theorem setup_mqtt_wiring w self s self' :
  fst (setup_mqtt self w s) = Some (Val self') ->
  self' = with_mqtt_client self /\
  wiring (events_since s (snd (setup_mqtt self w s))) =
  ((if (set (mqtt_username self) && set (mqtt_password self))%bool
    then [UsernamePwSet (unwrap (mqtt_username self)) (unwrap (mqtt_password self))]
    else []) ++
   [MqttConnect (mqtt_broker self) (mqtt_port self) 60; MqttLoopStart])%list.
Proof.
  unfold setup_mqtt, try_except, bind, perform, log, ret, raise, sys_exit.
  cbn.
  assert (Hleaf : forall target ext s1,
             history s1 = (history s ++ ext)%list ->
             wiring ext = target ->
             Some (Val (with_mqtt_client self)) = Some (Val self') ->
             self' = with_mqtt_client self /\
             wiring (events_since s s1) = target).
  { intros target ext s1 Hh Hwi Hr. inversion Hr; subst self'.
    split; [reflexivity|]. rewrite (events_since_app _ _ _ Hh). exact Hwi. }
  ask_world w.
  - ask_world w.
    + destruct (set (mqtt_username self) && set (mqtt_password self))%bool; cbn.
      * ask_world w; [|discriminate ..].
        ask_world w; [|discriminate ..].
        ask_world w; [|discriminate ..].
        eapply Hleaf; [finish_trace|reflexivity].
      * ask_world w; [|discriminate ..].
        ask_world w; [|discriminate ..].
        eapply Hleaf; [finish_trace|reflexivity].
    + destruct (isinstance _ _) eqn:Hcatch; cbn; [|discriminate].
      ask_world w; [|discriminate ..].
      destruct (set (mqtt_username self) && set (mqtt_password self))%bool; cbn.
      * ask_world w; [|discriminate ..].
        ask_world w; [|discriminate ..].
        ask_world w; [|discriminate ..].
        eapply Hleaf; [finish_trace|reflexivity].
      * ask_world w; [|discriminate ..].
        ask_world w; [|discriminate ..].
        eapply Hleaf; [finish_trace|reflexivity].
    + discriminate.
  - destruct (isinstance _ _) eqn:Hcatch; cbn; [|discriminate].
    ask_world w; [|discriminate ..].
    destruct (set (mqtt_username self) && set (mqtt_password self))%bool; cbn.
    + ask_world w; [|discriminate ..].
      ask_world w; [|discriminate ..].
      ask_world w; [|discriminate ..].
      eapply Hleaf; [finish_trace|reflexivity].
    + ask_world w; [|discriminate ..].
      ask_world w; [|discriminate ..].
      eapply Hleaf; [finish_trace|reflexivity].
  - discriminate.
Qed.

Lemma setup_mqtt_wiring_witness :
  wiring (events_since start (snd (setup_mqtt with_broker_login healthy_broker start))) =
  [UsernamePwSet "mqtt-user" "mqtt-pass"; MqttConnect "broker.lan" 8883 60;
   MqttLoopStart].
Proof.
  apply (setup_mqtt_wiring healthy_broker with_broker_login start
           (with_mqtt_client with_broker_login)).
  reflexivity.
Defined.

(** *** Events a computation adds *)

Lemma produces_ret {A} (a : A) P (Q : A -> Prop) : Q a -> produces (ret a) P Q.
Proof.
  intros Hq w s. exists []. cbn. rewrite app_nil_r.
  repeat split; auto. intros a' H. inversion H; subst; exact Hq.
Qed.

Lemma produces_raise {A} e P (Q : A -> Prop) : produces (raise e) P Q.
Proof.
  intros w s. exists []. cbn. rewrite app_nil_r.
  repeat split; auto. intros a' H. discriminate.
Qed.

Lemma produces_log l msg P : produces (log l msg) P anything.
Proof.
  intros w s. exists []. cbn. rewrite app_nil_r. repeat split; auto.
Qed.

Lemma produces_perform c P :
  (forall r, P (c, r)) -> produces (perform c) P anything.
Proof.
  intros Hp w s. exists [(c, w (history s) c)]. cbn.
  repeat split; auto.
Qed.

Lemma produces_bind {A B} (m : M A) (k : A -> M B) P Q R :
  produces m P Q -> (forall a, Q a -> produces (k a) P R) ->
  produces (bind m k) P R.
Proof.
  intros Hm Hk w s. unfold bind.
  destruct (Hm w s) as (ext & Hh & Hp & Hq).
  destruct (m w s) as [[[a|e]|] s1]; cbn [fst snd] in *.
  - destruct (Hk a (Hq a eq_refl) w s1) as (ext2 & Hh2 & Hp2 & Hq2).
    exists (ext ++ ext2)%list. rewrite Hh2, Hh, app_assoc.
    split; [reflexivity|]. split; [apply Forall_app; auto|exact Hq2].
  - exists ext. split; [exact Hh|]. split; [exact Hp|]. discriminate.
  - exists ext. split; [exact Hh|]. split; [exact Hp|]. discriminate.
Qed.

Lemma produces_try_except {A} (body : M A) catches handler P Q :
  produces body P Q -> (forall e, produces (handler e) P Q) ->
  produces (try_except body catches handler) P Q.
Proof.
  intros Hb Hh w s. unfold try_except.
  destruct (Hb w s) as (ext & Hhist & Hp & Hq).
  destruct (body w s) as [[[a|e]|] s1]; cbn [fst snd] in *.
  - exists ext. auto.
  - destruct (catches e).
    + destruct (Hh e w s1) as (ext2 & Hh2 & Hp2 & Hq2).
      exists (ext ++ ext2)%list. rewrite Hh2, Hhist, app_assoc.
      split; [reflexivity|]. split; [apply Forall_app; auto|exact Hq2].
    + exists ext. auto.
  - exists ext. auto.
Qed.

Lemma produces_try_finally {A} (body : M A) cleanup P Q R :
  produces body P Q -> produces cleanup P R ->
  produces (try_finally body cleanup) P Q.
Proof.
  intros Hb Hc w s. unfold try_finally.
  destruct (Hb w s) as (ext & Hhist & Hp & Hq).
  destruct (body w s) as [[r|] s1]; cbn [fst snd] in *.
  - destruct (Hc w s1) as (ext2 & Hh2 & Hp2 & _).
    exists (ext ++ ext2)%list.
    destruct (cleanup w s1) as [[[u|e2]|] s2]; cbn [fst snd] in *;
      rewrite Hh2, Hhist, app_assoc;
      (split; [reflexivity|]); (split; [apply Forall_app; auto|]);
      try discriminate.
    exact Hq.
  - exists ext. auto.
Qed.

Lemma produces_while_true n body P Q :
  produces body P Q -> produces (while_true n body) P anything.
Proof.
  intros Hb. induction n as [|n IH]; cbn.
  - intros w s. exists []. cbn. rewrite app_nil_r. repeat split; auto.
  - eapply produces_bind; [exact Hb|]. intros _ _. exact IH.
Qed.

Lemma produces_lift {A} (r : res A) P (Q : A -> Prop) :
  (forall a, r = Val a -> Q a) -> produces (lift r) P Q.
Proof.
  intros Hr. destruct r as [a|e]; cbn.
  - apply produces_ret. auto.
  - apply produces_raise.
Qed.

Lemma produces_weaken {A} (m : M A) P (Q Q' : A -> Prop) :
  produces m P Q -> (forall a, Q a -> Q' a) -> produces m P Q'.
Proof.
  intros Hm Hq w s. destruct (Hm w s) as (ext & Hh & Hp & Hv).
  exists ext. auto.
Qed.

Lemma produces_seq {A B} (m : M A) (k : M B) P Q R :
  produces m P Q -> produces k P R -> produces (bind m (fun _ => k)) P R.
Proof. intros Hm Hk. eapply produces_bind; eauto. Qed.

Lemma produces_get_charger_status self P :
  (forall r, P (GetHomeChargers, r)) ->
  (forall device_id r, P (GetChargingStatus device_id, r)) ->
  produces (get_charger_status self) P flag.
Proof.
  intros Hl Hs. unfold get_charger_status. apply produces_try_except.
  - eapply produces_seq with (Q := anything).
    + unfold attribute. destruct (chargepoint self);
        [apply produces_ret; exact I|apply produces_raise].
    + eapply produces_bind; [apply produces_perform, Hl|].
      intros chargers _. destruct (negb (truthy chargers)).
      * eapply produces_seq; [apply produces_log|].
        apply produces_ret. left; reflexivity.
      * eapply produces_bind with (Q := anything);
          [apply produces_lift; intros; exact I|].
        intros id _. eapply produces_seq; [apply produces_log|].
        eapply produces_bind; [apply produces_perform, Hs|].
        intros status _.
        eapply produces_bind with (Q := flag).
        -- apply produces_lift. intros [c pw] Hd. exact (derive_flag _ _ _ Hd).
        -- intros snap Hsnap. eapply produces_seq; [apply produces_log|].
           apply produces_ret. exact Hsnap.
  - intros e. eapply produces_seq; [apply produces_log|].
    apply produces_ret. left; reflexivity.
Qed.

Lemma produces_publish_status self c pw P :
  (forall r, P (write_connected self c, r)) ->
  (forall r, P (write_power self pw, r)) ->
  produces (publish_status self c pw) P anything.
Proof.
  intros H1 H2. unfold publish_status. apply produces_try_except.
  - eapply produces_seq with (Q := anything).
    + unfold attribute. destruct (mqtt_client self);
        [apply produces_ret; exact I|apply produces_raise].
    + eapply produces_seq; [apply produces_perform, H1|].
      eapply produces_seq; [apply produces_log|].
      eapply produces_seq; [apply produces_perform, H2|].
      apply produces_log.
  - intros e. apply produces_log.
Qed.

Lemma produces_time_sleep seconds P :
  (0 <= seconds <= 9223372036 -> forall r, P (Sleep seconds, r)) ->
  produces (time_sleep seconds) P anything.
Proof.
  intros Hp. unfold time_sleep.
  destruct (9223372036 <? seconds) eqn:H1; [apply produces_raise|].
  destruct (seconds <? 0) eqn:H2; [apply produces_raise|].
  apply Z.ltb_ge in H1, H2.
  eapply produces_seq; [apply produces_perform, Hp; lia|].
  apply produces_ret. exact I.
Qed.

Lemma cycle_as_configured self :
  produces (cycle self) (as_configured self) anything.
Proof.
  unfold cycle.
  eapply produces_bind.
  - apply produces_get_charger_status; intros; exact I.
  - intros [c pw] Hc. cbn [fst snd].
    eapply produces_seq.
    + apply produces_publish_status; intros r; cbn.
      * split; [reflexivity|]. left. split; [reflexivity|].
        destruct Hc as [Hc|Hc]; cbn in Hc; subst c; auto.
      * split; [reflexivity|]. right. split; [reflexivity|]. eauto.
    + apply produces_time_sleep. intros Hb r. cbn. auto.
Qed.

Lemma set_is_some o : set o = true -> o = Some (unwrap o).
Proof. destruct o; cbn; [reflexivity|discriminate]. Qed.

Lemma setup_mqtt_as_configured self :
  produces (setup_mqtt self) (as_configured self)
           (fun m => m = with_mqtt_client self).
Proof.
  unfold setup_mqtt.
  eapply produces_bind with (Q := fun m => m = with_mqtt_client self).
  - apply produces_try_except.
    + eapply produces_seq; [apply produces_perform; intros; exact I|].
      eapply produces_seq; [apply produces_perform; intros; reflexivity|].
      apply produces_ret. reflexivity.
    + intros e.
      eapply produces_seq; [apply produces_perform; intros; reflexivity|].
      apply produces_ret. reflexivity.
  - intros m ->. cbn [mqtt_username mqtt_password mqtt_broker mqtt_port
                        with_mqtt_client].
    eapply produces_seq with (Q := anything).
    + destruct (set (mqtt_username self) && set (mqtt_password self))%bool eqn:Ha.
      * apply andb_prop in Ha. destruct Ha as [Hu Hp].
        eapply produces_seq; [|apply produces_ret; exact I].
        apply produces_perform. intros r. cbn.
        split; apply set_is_some; assumption.
      * apply produces_ret. exact I.
    + apply produces_try_except.
      * eapply produces_seq; [apply produces_log|].
        eapply produces_seq; [apply produces_perform; intros; cbn; auto|].
        eapply produces_seq; [apply produces_perform; intros; exact I|].
        apply produces_ret. reflexivity.
      * intros e. eapply produces_seq; [apply produces_log|].
        apply produces_raise.
Qed.

Lemma setup_chargepoint_as_configured self :
  produces (setup_chargepoint self) (as_configured self)
           (fun m => m = with_chargepoint self).
Proof.
  unfold setup_chargepoint. apply produces_try_except.
  - eapply produces_seq; [apply produces_log|].
    eapply produces_seq; [apply produces_perform; intros; cbn; auto|].
    apply produces_ret. reflexivity.
  - intros e. eapply produces_seq; [apply produces_log|]. apply produces_raise.
Qed.

(** X9.  Whatever happens, every call [run] makes carries the monitor's
    settings: the client is built with the configured client id and
    connected to the configured host and port with keep-alive 60; broker and
    ChargePoint credentials are the configured ones; every broker write is
    retained and goes either to the connectivity topic with payload "0" or
    "1" or to the power topic with the text of a float; every sleep lasts
    exactly [poll_interval]. *)
Theorem run_calls_as_configured self n w s :
  Forall (as_configured self) (events_since s (snd (run self n w s))).
Proof.
  assert (H : produces (run self n) (as_configured self) anything).
  { unfold run.
    eapply produces_seq; [apply produces_log|].
    eapply produces_seq; [apply produces_log|].
    eapply produces_seq; [apply produces_log|].
    eapply produces_bind; [apply setup_mqtt_as_configured|].
    intros m1 ->.
    eapply produces_bind.
    - change (as_configured self) with (as_configured (with_mqtt_client self)).
      apply setup_chargepoint_as_configured.
    - intros m2 ->.
      eapply produces_try_finally.
      + apply produces_try_except.
        * eapply produces_while_true.
          change (as_configured self)
            with (as_configured (with_chargepoint (with_mqtt_client self))).
          apply cycle_as_configured.
        * intros e. apply produces_log.
      + cbn [mqtt_client with_chargepoint with_mqtt_client].
        eapply produces_seq; [apply produces_perform; intros; exact I|].
        eapply produces_seq; [apply produces_perform; intros; exact I|].
        apply produces_ret with (Q := anything). exact I. }
  destruct (H w s) as (ext & Hh & Hp & _).
  rewrite (events_since_app _ _ _ Hh). exact Hp.
Qed.

(** *** The loop *)

Lemma publish_returns w self c pw s :
  never_interrupts w ->
  exists s', publish_status self c pw w s = (Some (Val tt), s').
Proof.
  intros Hw.
  unfold publish_status, try_except, bind, attribute, perform, log, ret, raise.
  destruct (mqtt_client self); cbn; [|eexists; reflexivity].
  destruct (w (history s) (MqttPublish (mqtt_topic_connected self) (str_of_int c) true))
    as [v|mro msg|] eqn:H1; cbn.
  - match goal with
    | |- context [w ?h ?c] => destruct (w h c) as [v2|mro msg|] eqn:H2; cbn
    end.
    + eexists; reflexivity.
    + eexists; reflexivity.
    + destruct (Hw _ _ H2).
  - eexists; reflexivity.
  - destruct (Hw _ _ H1).
Qed.

Lemma no_sleep_filter ext :
  Forall (fun e => is_sleep e = false) ext -> filter is_sleep ext = [].
Proof.
  induction 1 as [|e ext He _ IH]; cbn; [reflexivity|]. rewrite He. exact IH.
Qed.

(** A turn of the loop up to its sleep: the poll and the publish return
    and none of their events is a sleep. *)
Lemma turn_before_sleep w self s :
  never_interrupts w ->
  exists snap s1 s2 ext,
    get_charger_status self w s = (Some (Val snap), s1) /\
    publish_status self (fst snap) (snd snap) w s1 = (Some (Val tt), s2) /\
    history s2 = (history s ++ ext)%list /\
    Forall (fun e => is_sleep e = false) ext /\
    cycle self w s = time_sleep (poll_interval self) w s2.
Proof.
  intros Hw.
  destruct (poll_cases w self s Hw) as (c & pw & s1 & Hpoll & _).
  destruct (publish_returns w self c pw s1 Hw) as (s2 & Hpub).
  destruct (produces_get_charger_status self (fun e => is_sleep e = false)
              (fun _ => eq_refl) (fun _ _ => eq_refl) w s) as (ext1 & Hh1 & Hp1 & _).
  destruct (produces_publish_status self c pw (fun e => is_sleep e = false)
              (fun _ => eq_refl) (fun _ => eq_refl) w s1) as (ext2 & Hh2 & Hp2 & _).
  rewrite Hpoll in Hh1. rewrite Hpub in Hh2. cbn [snd] in Hh1, Hh2.
  exists (c, pw), s1, s2, (ext1 ++ ext2)%list.
  split; [exact Hpoll|]. split; [exact Hpub|].
  split; [rewrite Hh2, Hh1, app_assoc; reflexivity|].
  split; [apply Forall_app; auto|].
  unfold cycle, bind at 1. rewrite Hpoll. unfold bind at 1. cbn [fst snd].
  rewrite Hpub. reflexivity.
Qed.

Lemma while_true_step w self n s s2 v :
  cycle self w s = time_sleep (poll_interval self) w s2 ->
  sleepable (poll_interval self) ->
  w (history s2) (Sleep (poll_interval self)) = Returns v ->
  while_true (S n) (cycle self) w s =
  while_true n (cycle self) w (slept s2 (poll_interval self) v).
Proof.
  intros Hcycle Hint Hv. cbn [while_true]. unfold bind at 1. rewrite Hcycle.
  unfold time_sleep, sleepable in *.
  replace (9223372036 <? poll_interval self) with false
    by (symmetry; apply Z.ltb_ge; lia).
  replace (poll_interval self <? 0) with false
    by (symmetry; apply Z.ltb_ge; lia).
  unfold bind, perform, ret. rewrite Hv. reflexivity.
Qed.

(** X10.  Nothing but a signal ends the loop: whatever the upstream and
    the broker client return or raise, as long as no interrupt arrives
    and [time.sleep] accepts the interval, every turn runs to its end;
    after [n] turns the loop is still running and has slept exactly [n]
    times. *)
Theorem loop_survives_every_error w self n s :
  never_interrupts w -> sleeps_return w -> sleepable (poll_interval self) ->
  fst (while_true n (cycle self) w s) = None /\
  List.length (filter is_sleep
                 (events_since s (snd (while_true n (cycle self) w s)))) = n.
Proof.
  intros Hw Hsl Hint.
  assert (H : exists ext,
             history (snd (while_true n (cycle self) w s)) = (history s ++ ext)%list /\
             fst (while_true n (cycle self) w s) = None /\
             List.length (filter is_sleep ext) = n).
  { revert s. induction n as [|n IH]; intros s.
    - exists []. cbn. rewrite app_nil_r. auto.
    - destruct (turn_before_sleep w self s Hw)
        as (snap & s1 & s2 & ext & _ & _ & Hh & Hq & Hcycle).
      destruct (Hsl (history s2) (poll_interval self)) as (v & Hv).
      rewrite (while_true_step w self n s s2 v Hcycle Hint Hv).
      destruct (IH (slept s2 (poll_interval self) v)) as (ext3 & Hh3 & Hr3 & Hn3).
      exists (ext ++ [(Sleep (poll_interval self), Returns v)] ++ ext3)%list.
      split.
      + rewrite Hh3. cbn [slept history]. rewrite Hh, <- !app_assoc.
        reflexivity.
      + split; [exact Hr3|].
        rewrite !filter_app, (no_sleep_filter _ Hq). rewrite !length_app.
        cbn. f_equal. exact Hn3. }
  destruct H as (ext & Hh & Hr & Hn).
  rewrite (events_since_app _ _ _ Hh). auto.
Qed.

Lemma all_down_never_interrupts : never_interrupts all_down.
Proof. intros h c. unfold all_down. destruct c; discriminate. Qed.

Lemma loop_survives_every_error_witness :
  fst (while_true 4 (cycle logged_in) all_down start) = None /\
  List.length (filter is_sleep
                 (events_since start
                    (snd (while_true 4 (cycle logged_in) all_down start)))) = 4%nat.
Proof.
  apply (loop_survives_every_error all_down logged_in 4 start).
  - exact all_down_never_interrupts.
  - intros h seconds. exists PyNone. reflexivity.
  - unfold sleepable. cbn. lia.
Defined.

Lemma time_sleep_rejects seconds w s :
  ~ sleepable seconds ->
  exists mro msg, time_sleep seconds w s = (Some (Exc (Error mro msg)), s).
Proof.
  intros Hbad. unfold time_sleep, sleepable in *.
  destruct (9223372036 <? seconds) eqn:H1; [do 2 eexists; reflexivity|].
  destruct (seconds <? 0) eqn:H2; [do 2 eexists; reflexivity|].
  apply Z.ltb_ge in H1, H2. lia.
Qed.

Lemma startup_no_sleep ext :
  Forall startup_event ext -> filter is_sleep ext = [].
Proof.
  intros H. apply no_sleep_filter. eapply Forall_impl; [|exact H].
  intros [c r]. unfold startup_event, is_sleep. cbn. destruct c; cbn; congruence.
Qed.

Lemma shutdown_no_sleep ext :
  Forall shutdown_event ext -> filter is_sleep ext = [].
Proof.
  intros H. apply no_sleep_filter. eapply Forall_impl; [|exact H].
  intros [c r] [Hc|Hc]; cbn in Hc; subst c; reflexivity.
Qed.

Lemma shutdown_outcome w self s :
  never_interrupts w ->
  fst (shutdown self w s) = Some (Val tt) \/
  exists mro msg, fst (shutdown self w s) = Some (Exc (Error mro msg)).
Proof.
  intros Hw. unfold shutdown, bind, perform, ret.
  destruct (mqtt_client self); cbn; [|left; reflexivity].
  destruct (w (history s) MqttLoopStop) as [v| |] eqn:E1; cbn.
  - match goal with
    | |- context [w ?h ?c] => destruct (w h c) as [v2| |] eqn:E2; cbn
    end.
    + left; reflexivity.
    + right; eauto.
    + destruct (Hw _ _ E2).
  - right; eauto.
  - destruct (Hw _ _ E1).
Qed.

Lemma serve_unsleepable w self n s :
  mqtt_client self = true -> ~ sleepable (poll_interval self) ->
  never_interrupts w ->
  exists e,
    fst (serve self (S n) w s) = Some (Exc e) /\ exit_status (Exc e) <> 0 /\
    filter is_sleep (events_since s (snd (serve self (S n) w s))) = [].
Proof.
  intros Hc Hbad Hw.
  destruct (turn_before_sleep w self s Hw)
    as (snap & s1 & s2 & ext & _ & _ & Hh & Hq & Hcycle).
  destruct (time_sleep_rejects _ w s2 Hbad) as (mro & msg & Hsleep).
  rewrite Hsleep in Hcycle.
  assert (Hloop : while_true (S n) (cycle self) w s
                  = (Some (Exc (Error mro msg)), s2)).
  { cbn [while_true]. unfold bind. rewrite Hcycle. reflexivity. }
  unfold serve, try_finally, try_except. rewrite Hloop.
  cbn [is_KeyboardInterrupt].
  destruct (shutdown_cases w self s2 Hc) as (ext2 & Hh2 & Hs2 & _).
  destruct (shutdown_outcome w self s2 Hw) as [Hr|(mro2 & msg2 & Hr)];
    destruct (shutdown self w s2) as [r2 s3]; cbn [fst snd] in *; subst r2;
    cbn -[events_since exit_status].
  - exists (Error mro msg). split; [reflexivity|]. split; [discriminate|].
    erewrite events_since_app
      by (rewrite Hh2, Hh, <- app_assoc; reflexivity).
    rewrite filter_app, (no_sleep_filter _ Hq), (shutdown_no_sleep _ Hs2).
    reflexivity.
  - exists (Error mro2 msg2). split; [reflexivity|]. split; [discriminate|].
    erewrite events_since_app
      by (rewrite Hh2, Hh, <- app_assoc; reflexivity).
    rewrite filter_app, (no_sleep_filter _ Hq), (shutdown_no_sleep _ Hs2).
    reflexivity.
Qed.

(** X11.  With a POLL_INTERVAL that [time.sleep] refuses (negative, or
    above 9223372036 seconds) the monitor cannot loop: unless a signal
    arrives, [run] ends with an exception and a non-zero status within its
    first turn, and it never sleeps. *)
Theorem unusable_interval_ends_run self n w s :
  ~ sleepable (poll_interval self) -> never_interrupts w ->
  exists e,
    fst (run self (S n) w s) = Some (Exc e) /\ exit_status (Exc e) <> 0 /\
    filter is_sleep (events_since s (snd (run self (S n) w s))) = [].
Proof.
  intros Hbad Hw. rewrite run_eq.
  destruct (setup_mqtt_cases w self (announced s)) as (ext1 & Hh1 & Hr1).
  cbn [announced history] in Hh1.
  destruct (setup_mqtt self w (announced s)) as [[[m1|e]|] s1]; cbn [fst snd] in *.
  3:{ destruct Hr1. }
  2:{ destruct Hr1 as (Hx & Hs & _). exists e. split; [reflexivity|].
      split; [exact Hx|]. rewrite (events_since_app _ _ _ Hh1).
      apply startup_no_sleep, Hs. }
  destruct Hr1 as (-> & Hs1 & _ & _).
  destruct (setup_chargepoint_cases w (with_mqtt_client self) s1) as (ext2 & Hh2 & Hr2).
  destruct (setup_chargepoint (with_mqtt_client self) w s1) as [[[m2|e]|] s2];
    cbn [fst snd] in *.
  3:{ destruct Hr2. }
  2:{ destruct Hr2 as (Hx & Hs & _). exists e. split; [reflexivity|].
      split; [exact Hx|].
      erewrite events_since_app by (rewrite Hh2, Hh1, <- app_assoc; reflexivity).
      rewrite filter_app, (startup_no_sleep _ Hs1), (startup_no_sleep _ Hs).
      reflexivity. }
  destruct Hr2 as (-> & Hs2 & _ & _).
  destruct (serve_unsleepable w (with_chargepoint (with_mqtt_client self)) n s2
              eq_refl Hbad Hw) as (e & Hr & Hx & Hns).
  exists e. split; [exact Hr|]. split; [exact Hx|].
  destruct (serve_cases w (with_chargepoint (with_mqtt_client self)) (S n) s2 eq_refl)
    as (lext & sext & Hh3 & _).
  rewrite (events_since_app _ _ _ Hh3) in Hns.
  erewrite events_since_app
    by (rewrite Hh3, Hh2, Hh1, <- !app_assoc; reflexivity).
  rewrite !filter_app, (startup_no_sleep _ Hs1), (startup_no_sleep _ Hs2).
  cbn [app]. rewrite <- filter_app. exact Hns.
Qed.

Lemma unusable_interval_ends_run_witness :
  exists e,
    fst (run negative_interval 3 healthy_broker start) = Some (Exc e) /\
    exit_status (Exc e) <> 0 /\
    filter is_sleep
      (events_since start (snd (run negative_interval 3 healthy_broker start))) = [].
Proof.
  apply (unusable_interval_ends_run negative_interval 2 healthy_broker start).
  - unfold sleepable. cbn. lia.
  - intros h c. discriminate.
Defined.

(** X12.  [except Exception] does not swallow an interrupt: when the
    signal arrives during any call of the loop (listing, status request,
    broker write or sleep) and the client's [loop_stop] and [disconnect]
    return, the process stops the client, disconnects and exits with
    status 0; the interrupted call is the last call of the loop. *)
Theorem interrupt_in_loop_shuts_down env n w c :
  (forall h, exists v, w h MqttLoopStop = Returns v) ->
  (forall h, exists v, w h MqttDisconnect = Returns v) ->
  loop_call c = true ->
  In (c, Interrupted) (history (snd (main env n w start))) ->
  fst (main env n w start) = Some (Val tt) /\
  exists pre v1 v2,
    history (snd (main env n w start)) =
      (pre ++ [(c, Interrupted);
               (MqttLoopStop, Returns v1); (MqttDisconnect, Returns v2)])%list /\
    Forall quiet pre.
Proof.
  intros Hstop Hdisc Hc Hin.
  destruct (main_cases env n w) as [(e & Hr & Hx & Hs & Hh)|
                                    (up & lext & sext & Hh & Hs & _ & Hq & Hl & Hsd & Hint)].
  - exfalso. rewrite Forall_forall in Hs. specialize (Hs _ Hin).
    unfold startup_event in Hs. cbn in Hs. destruct c; discriminate.
  - rewrite Hh in Hin.
    assert (Hup : ~ In (c, Interrupted) up).
    { intros H. rewrite Forall_forall in Hq. specialize (Hq _ H). discriminate. }
    assert (Hsext : ~ In (c, Interrupted) sext).
    { intros H. rewrite Forall_forall in Hsd.
      destruct (Hsd _ H) as [H'|H']; cbn in H'; subst c; discriminate. }
    apply in_app_or in Hin. destruct Hin as [Hin|Hin]; [contradiction|].
    apply in_app_or in Hin. destruct Hin as [Hin|Hin]; [|contradiction].
    destruct Hint as [Hquiet|(ext' & c' & -> & Hq' & Hret)].
    + exfalso. rewrite Forall_forall in Hquiet. specialize (Hquiet _ Hin).
      discriminate.
    + destruct (Hstop (up ++ ext' ++ [(c', Interrupted)])%list) as (v1 & H1).
      destruct (Hdisc ((up ++ ext' ++ [(c', Interrupted)])
                         ++ [(MqttLoopStop, Returns v1)])%list) as (v2 & H2).
      destruct (Hret v1 v2 H1 H2) as (-> & Hr).
      split; [exact Hr|].
      apply in_app_or in Hin. destruct Hin as [Hin|[Heq|[]]].
      { exfalso. rewrite Forall_forall in Hq'. specialize (Hq' _ Hin).
        discriminate. }
      inversion Heq; subst c'.
      exists (up ++ ext')%list, v1, v2. split.
      * rewrite Hh, <- !app_assoc. reflexivity.
      * apply Forall_app; auto.
Qed.

Lemma interrupt_in_loop_shuts_down_witness :
  fst (main credentials 5 interrupt_second_status start) = Some (Val tt) /\
  exists pre v1 v2,
    history (snd (main credentials 5 interrupt_second_status start)) =
      (pre ++ [(GetChargingStatus (PyInt 1), Interrupted);
               (MqttLoopStop, Returns v1); (MqttDisconnect, Returns v2)])%list /\
    Forall quiet pre.
Proof.
  apply (interrupt_in_loop_shuts_down credentials 5 interrupt_second_status
           (GetChargingStatus (PyInt 1))).
  - intros h. exists PyNone. reflexivity.
  - intros h. exists PyNone. reflexivity.
  - reflexivity.
  - vm_compute. do 11 right. left. reflexivity.
Defined.

Lemma loop_or_shutdown_not_startup ext :
  Forall (fun e => loop_event e \/ shutdown_event e) ext ->
  Forall (fun e => startup_call (fst e) = false) ext.
Proof.
  intros H. eapply Forall_impl; [|exact H].
  intros [c r] [Hl|[Hs|Hs]]; cbn in *.
  - unfold loop_event in Hl. cbn in Hl. destruct c; cbn in *; congruence.
  - subst c. reflexivity.
  - subst c. reflexivity.
Qed.

(** X13.  The sessions are opened once: after the first call of the loop
    the process never again builds a client, sends credentials, connects,
    starts the network loop or logs in, whatever errors follow. *)
Theorem no_startup_call_after_loop_began env n w pre e post :
  history (snd (main env n w start)) = (pre ++ e :: post)%list ->
  loop_call (fst e) = true ->
  Forall (fun e' => startup_call (fst e') = false) post.
Proof.
  intros Hsplit He.
  destruct (main_cases env n w) as [(x & _ & _ & Hs & _)|
                                    (up & lext & sext & Hh & Hs & _ & _ & Hl & Hsd & _)].
  - exfalso. rewrite Hsplit in Hs. apply Forall_app in Hs. destruct Hs as [_ Hs].
    inversion Hs as [|? ? Hse _]; subst. unfold startup_event in Hse.
    destruct (fst e); cbn in *; congruence.
  - assert (Hrest : Forall (fun e' => startup_call (fst e') = false) (lext ++ sext)).
    { apply loop_or_shutdown_not_startup, Forall_app. split.
      - eapply Forall_impl; [|exact Hl]. auto.
      - eapply Forall_impl; [|exact Hsd]. auto. }
    rewrite Hh in Hsplit. apply app_eq_app in Hsplit.
    destruct Hsplit as (l & [[Hup Hcut]|[Hpre Hcut]]).
    + destruct l as [|e' l'].
      * cbn in Hcut. rewrite <- Hcut in Hrest. inversion Hrest; assumption.
      * exfalso. cbn in Hcut. inversion Hcut; subst e'.
        rewrite Hup in Hs. apply Forall_app in Hs. destruct Hs as [_ Hs].
        inversion Hs as [|? ? Hse _]; subst. unfold startup_event in Hse.
        destruct (fst e); cbn in *; congruence.
    + rewrite Hcut in Hrest. apply Forall_app in Hrest. destruct Hrest as [_ Hrest].
      inversion Hrest; assumption.
Qed.

Lemma no_startup_call_after_loop_began_witness :
  Forall (fun e' => startup_call (fst e') = false)
         (skipn 6 (history (snd (main credentials 3 all_down_after_startup start)))).
Proof.
  apply (no_startup_call_after_loop_began credentials 3 all_down_after_startup
           (firstn 5 (history (snd (main credentials 3 all_down_after_startup start))))
           (GetHomeChargers, Raises ["ConnectionError"; "OSError"] "unreachable")).
  - vm_compute. reflexivity.
  - reflexivity.
Defined.

Lemma while_true_never_returns n body w s a :
  fst (while_true n body w s) <> Some (Val a).
Proof.
  revert s. induction n as [|n IH]; intros s; cbn; [discriminate|].
  unfold bind. destruct (body w s) as [[[u|e]|] s1]; cbn; [apply IH|discriminate ..].
Qed.

Lemma shutdown_extends w self s :
  exists ext, history (snd (shutdown self w s)) = (history s ++ ext)%list.
Proof.
  unfold shutdown, bind, perform, ret.
  destruct (mqtt_client self); cbn; [|exists []; rewrite app_nil_r; reflexivity].
  destruct (w (history s) MqttLoopStop) as [v| |]; cbn;
    try (eexists; reflexivity).
  match goal with
  | |- context [w ?h ?c] => destruct (w h c) as [v2| |]; cbn
  end; eexists; rewrite <- app_assoc; reflexivity.
Qed.

Lemma serve_returns_after_interrupt w self n s :
  fst (serve self n w s) = Some (Val tt) ->
  exists c, loop_call c = true /\
            In (c, Interrupted) (history (snd (serve self n w s))).
Proof.
  unfold serve, try_finally, try_except.
  destruct (tidy_while_true n _ (tidy_cycle self) w s) as (ext & Hh & Hl & Hq).
  pose proof (while_true_never_returns n (cycle self) w s) as Hnever.
  destruct (while_true n (cycle self) w s) as [[[a|e]|] s1]; cbn [fst snd] in *.
  - destruct (Hnever a eq_refl).
  - destruct Hq as [[_ Hne]|(ext' & c & -> & _ & Hki)].
    + destruct e as [mro msg| |code]; cbn [is_KeyboardInterrupt].
      * destruct (shutdown self w s1) as [[[u|e2]|] s2]; cbn; discriminate.
      * congruence.
      * destruct (shutdown self w s1) as [[[u|e2]|] s2]; cbn; discriminate.
    + inversion Hki; subst e. cbn [is_KeyboardInterrupt].
      change (log INFO "Shutting down..." w s1)
        with (Some (Val tt),
              mkState (history s1) (logs s1 ++ [(INFO, "Shutting down...")])%list).
      cbv beta iota.
      set (s1' := mkState (history s1) _).
      destruct (shutdown_extends w self s1') as (ext2 & Hh2).
      intros _. exists c. split.
      * apply Forall_app in Hl. destruct Hl as [_ Hl].
        inversion Hl; subst. assumption.
      * assert (Hfinal : forall r2 s2,
                   shutdown self w s1' = (r2, s2) ->
                   In (c, Interrupted) (history s2)).
        { intros r2 s2 Hsd. rewrite Hsd in Hh2. cbn [snd] in Hh2. rewrite Hh2.
          subst s1'. cbn [history]. rewrite Hh.
          apply in_or_app. left. apply in_or_app. right.
          apply in_or_app. right. left. reflexivity. }
        destruct (shutdown self w s1') as [[[u|e2]|] s2] eqn:Hsd; cbn [snd];
          eapply Hfinal; reflexivity.
  - discriminate.
Qed.

(** X14.  The process ends with status 0 only through the interrupt
    path: whenever [main] returns, some call of the loop was cut short by
    the interrupt signal.  No error and no answer of the upstream or the
    broker makes the monitor exit cleanly. *)
Theorem clean_exit_needs_interrupt env n w :
  fst (main env n w start) = Some (Val tt) ->
  exists c, loop_call c = true /\
            In (c, Interrupted) (history (snd (main env n w start))).
Proof.
  rewrite main_eq.
  destruct (__init__ env w start) as [[[m|e]|] s0]; cbn [fst snd];
    try discriminate.
  rewrite run_eq.
  destruct (setup_mqtt m w (announced s0)) as [[[m1|e]|] s1]; cbn [fst snd];
    try discriminate.
  destruct (setup_chargepoint m1 w s1) as [[[m2|e]|] s2]; cbn [fst snd];
    try discriminate.
  apply serve_returns_after_interrupt.
Qed.

Lemma clean_exit_needs_interrupt_witness :
  exists c, loop_call c = true /\
            In (c, Interrupted)
               (history (snd (main credentials 5 interrupt_third_sleep start))).
Proof.
  apply (clean_exit_needs_interrupt credentials 5 interrupt_third_sleep).
  vm_compute. reflexivity.
Defined.

(** *** Not-a-number *)

Lemma binary_round_aux_not_nan sx m e l :
  0 <= m -> is_nan (binary_round_aux prec emax sx m e l) = false.
Proof.
  intros Hm. unfold binary_round_aux.
  pose proof (shr_fexp_nonneg m e l Hm) as H1.
  destruct (shr_fexp prec emax m e l) as [mrs' e'] eqn:E1. cbn [fst] in H1.
  pose proof (shr_fexp_nonneg _ e' loc_Exact
                (round_nearest_even_nonneg _ (loc_of_shr_record mrs') H1)) as H2.
  destruct (shr_fexp prec emax (round_nearest_even (shr_m mrs') (loc_of_shr_record mrs')) e' loc_Exact)
    as [mrs'' e''] eqn:E2. cbn [fst] in H2.
  destruct (shr_m mrs'') as [|p|p]; [reflexivity| |lia].
  destruct (e'' <=? emax - prec); reflexivity.
Qed.

Lemma fmul_1000_nan x : is_nan (fmul x f1000) = is_nan x.
Proof.
  destruct x as [sx|sx| |sx m e]; try reflexivity.
  unfold fmul, f1000, SFmul. apply binary_round_aux_not_nan. lia.
Qed.

(** X15.  The conversion to watts adds no NaN: the power a poll returns is
    a NaN only when the reading of the reply, as [float()] gave it, was
    one already. *)
Theorem nan_only_from_reading w self s reply c pw :
  chargepoint self = true -> serves w s reply ->
  polled self w s = Some (c, pw) -> is_nan pw = true ->
  exists x, power_kw_of reply = Val x /\ is_nan x = true.
Proof.
  intros Hcp Hs. unfold polled. rewrite (poll_of_reply _ _ _ _ Hcp Hs).
  destruct (derive_cases reply) as [(c' & x & _ & Hx & Hd)|(e & Hd & _)]; rewrite Hd.
  - intros H Hn. inversion H; subst. exists x. split; [exact Hx|].
    rewrite fmul_1000_nan in Hn. exact Hn.
  - intros H Hn. inversion H; subst. discriminate.
Qed.

Lemma nan_only_from_reading_witness :
  exists x, power_kw_of nan_reading = Val x /\ is_nan x = true.
Proof.
  apply (nan_only_from_reading (upstream nan_reading) logged_in start nan_reading
           0 S754_nan).
  - reflexivity.
  - apply upstream_serves.
  - reflexivity.
  - reflexivity.
Defined.

(** *** The client constructor *)

Lemma setup_mqtt_eq self :
  setup_mqtt self = (self' <- build_client self ;; connect_client self').
Proof. reflexivity. Qed.

Lemma connect_client_keeps_constructor self :
  produces (connect_client self) (fun e => plain_constructor e = false) anything.
Proof.
  unfold connect_client.
  eapply produces_seq with (Q := anything).
  - destruct (set (mqtt_username self) && set (mqtt_password self))%bool.
    + eapply produces_seq; [apply produces_perform; reflexivity|].
      apply produces_ret. exact I.
    + apply produces_ret. exact I.
  - apply produces_try_except.
    + eapply produces_seq; [apply produces_log|].
      eapply produces_seq; [apply produces_perform; reflexivity|].
      eapply produces_seq; [apply produces_perform; reflexivity|].
      apply produces_ret. exact I.
    + intros e. eapply produces_seq; [apply produces_log|]. apply produces_raise.
Qed.

(** The events of [setup_mqtt] are those of its first [try] followed by
    events that are no plain constructor call. *)
Lemma setup_mqtt_after_client w self s :
  exists ext,
    events_since s (snd (setup_mqtt self w s)) =
      (events_since s (snd (build_client self w s)) ++ ext)%list /\
    Forall (fun e => plain_constructor e = false) ext.
Proof.
  assert (Hb : exists ext0,
             history (snd (build_client self w s)) = (history s ++ ext0)%list).
  { assert (Hp : produces (build_client self) (fun _ => True) anything).
    { unfold build_client. apply produces_try_except.
      - eapply produces_seq; [apply produces_perform; auto|].
        eapply produces_seq; [apply produces_perform; auto|].
        apply produces_ret. exact I.
      - intros e. eapply produces_seq; [apply produces_perform; auto|].
        apply produces_ret. exact I. }
    destruct (Hp w s) as (ext0 & Hh & _). exists ext0. exact Hh. }
  destruct Hb as (ext0 & Hb).
  rewrite setup_mqtt_eq. unfold bind.
  rewrite (events_since_app _ _ _ Hb).
  destruct (build_client self w s) as [[[m|e]|] s1]; cbn [fst snd] in *.
  - destruct (connect_client_keeps_constructor m w s1) as (ext & Hh & Hp & _).
    exists ext. split; [|exact Hp].
    apply events_since_app. rewrite Hh, Hb, app_assoc. reflexivity.
  - exists []. split; [|constructor]. rewrite app_nil_r.
    apply events_since_app. exact Hb.
  - exists []. split; [|constructor]. rewrite app_nil_r.
    apply events_since_app. exact Hb.
Qed.

(** The first [try] calls the plain constructor exactly on a trigger. *)
Lemma build_client_fallback w self s :
  Exists (fun e => plain_constructor e = true)
         (events_since s (snd (build_client self w s))) <->
  fallback_trigger w self s.
Proof.
  unfold fallback_trigger, build_client, try_except, bind, perform, ret. cbn.
  destruct (w (history s) ImportCallbackAPIVersion) as [v|mro msg|] eqn:E1; cbn.
  - destruct (w (history s ++ [(ImportCallbackAPIVersion, Returns v)])%list
                (MqttClient (mqtt_client_id self) true)) as [v2|mro msg|] eqn:E2; cbn.
    + erewrite events_since_app by (cbn; rewrite <- ?app_assoc; reflexivity).
      split.
      * intros H. repeat (inversion H as [? ? Hx|? ? H']; subst;
                          [discriminate Hx|clear H; rename H' into H]).
        inversion H.
      * intros [(mro & msg & Hx & _)|(v' & mro & msg & Hv & Hx & _)];
          [discriminate|].
        inversion Hv; subst v'. rewrite E2 in Hx. discriminate.
    + destruct (isinstance (Error mro msg) ["ImportError"; "AttributeError"]) eqn:Hc;
        cbn.
      * split.
        -- intros _. right. exists v, mro, msg. auto.
        -- intros _.
           match goal with |- context [w ?h (MqttClient ?i false)] =>
             destruct (w h (MqttClient i false)) end; cbn;
             erewrite events_since_app by (cbn; rewrite <- ?app_assoc; reflexivity);
             apply Exists_cons_tl, Exists_cons_tl, Exists_cons_hd; reflexivity.
      * erewrite events_since_app by (cbn; rewrite <- ?app_assoc; reflexivity).
        split.
        -- intros H. repeat (inversion H as [? ? Hx|? ? H']; subst;
                             [discriminate Hx|clear H; rename H' into H]).
           inversion H.
        -- intros [(mro' & msg' & Hx & _)|(v' & mro' & msg' & Hv & Hx & Hi)];
             [discriminate|].
           inversion Hv; subst v'. rewrite E2 in Hx. inversion Hx; subst.
           congruence.
    + erewrite events_since_app by (cbn; rewrite <- ?app_assoc; reflexivity).
      split.
      * intros H. repeat (inversion H as [? ? Hx|? ? H']; subst;
                          [discriminate Hx|clear H; rename H' into H]).
        inversion H.
      * intros [(mro & msg & Hx & _)|(v' & mro & msg & Hv & Hx & _)];
          [discriminate|].
        inversion Hv; subst v'. rewrite E2 in Hx. discriminate.
  - destruct (isinstance (Error mro msg) ["ImportError"; "AttributeError"]) eqn:Hc;
      cbn.
    + split.
      * intros _. left. exists mro, msg. auto.
      * intros _.
        match goal with |- context [w ?h (MqttClient ?i false)] =>
          destruct (w h (MqttClient i false)) end; cbn;
          erewrite events_since_app by (cbn; rewrite <- ?app_assoc; reflexivity);
          apply Exists_cons_tl, Exists_cons_hd; reflexivity.
    + erewrite events_since_app by (cbn; rewrite <- ?app_assoc; reflexivity).
      split.
      * intros H. repeat (inversion H as [? ? Hx|? ? H']; subst;
                          [discriminate Hx|clear H; rename H' into H]).
        inversion H.
      * intros [(mro' & msg' & Hx & Hi)|(v' & mro' & msg' & Hv & _)];
          [|discriminate].
        inversion Hx; subst. congruence.
  - erewrite events_since_app by (cbn; rewrite <- ?app_assoc; reflexivity).
    split.
    + intros H. repeat (inversion H as [? ? Hx|? ? H']; subst;
                        [discriminate Hx|clear H; rename H' into H]).
      inversion H.
    + intros [(mro & msg & Hx & _)|(v' & mro & msg & Hv & _)]; discriminate.
Qed.

(** X7.  [setup_mqtt] calls the constructor without
    [callback_api_version] exactly when the import or the first
    constructor call raises [ImportError] or [AttributeError] (or a
    subclass): on such an error the very next call is
    [mqtt.Client(client_id)], and in every other case (both calls return,
    either raises an error of another class, or the signal arrives) the
    plain constructor is never called.  An error of another class is not
    caught: [setup_mqtt] raises it and calls nothing else. *)
Theorem client_constructor_fallback w self s :
  (forall mro msg,
      w (history s) ImportCallbackAPIVersion = Raises mro msg ->
      isinstance (Error mro msg) ["ImportError"; "AttributeError"] = true ->
      exists r rest,
        events_since s (snd (setup_mqtt self w s)) =
        (ImportCallbackAPIVersion, Raises mro msg)
          :: (MqttClient (mqtt_client_id self) false, r) :: rest) /\
  (forall v mro msg,
      w (history s) ImportCallbackAPIVersion = Returns v ->
      w (history s ++ [(ImportCallbackAPIVersion, Returns v)])%list
        (MqttClient (mqtt_client_id self) true) = Raises mro msg ->
      isinstance (Error mro msg) ["ImportError"; "AttributeError"] = true ->
      exists r rest,
        events_since s (snd (setup_mqtt self w s)) =
        (ImportCallbackAPIVersion, Returns v)
          :: (MqttClient (mqtt_client_id self) true, Raises mro msg)
          :: (MqttClient (mqtt_client_id self) false, r) :: rest) /\
  (forall mro msg,
      w (history s) ImportCallbackAPIVersion = Raises mro msg ->
      isinstance (Error mro msg) ["ImportError"; "AttributeError"] = false ->
      fst (setup_mqtt self w s) = Some (Exc (Error mro msg)) /\
      events_since s (snd (setup_mqtt self w s)) =
      [(ImportCallbackAPIVersion, Raises mro msg)]) /\
  (forall v mro msg,
      w (history s) ImportCallbackAPIVersion = Returns v ->
      w (history s ++ [(ImportCallbackAPIVersion, Returns v)])%list
        (MqttClient (mqtt_client_id self) true) = Raises mro msg ->
      isinstance (Error mro msg) ["ImportError"; "AttributeError"] = false ->
      fst (setup_mqtt self w s) = Some (Exc (Error mro msg)) /\
      events_since s (snd (setup_mqtt self w s)) =
      [(ImportCallbackAPIVersion, Returns v);
       (MqttClient (mqtt_client_id self) true, Raises mro msg)]) /\
  (Exists (fun e => plain_constructor e = true)
          (events_since s (snd (setup_mqtt self w s))) <->
   fallback_trigger w self s).
Proof.
  split; [|split; [|split; [|split]]].
  - unfold setup_mqtt, try_except, bind, perform, log, ret, raise, sys_exit. cbn.
    intros mro msg Hi Hc. rewrite Hi. cbn. rewrite Hc. cbn.
    ask_world w; [|do 2 eexists; apply events_since_app; finish_trace ..].
    destruct (set (mqtt_username self) && set (mqtt_password self))%bool; cbn.
    + ask_world w; [|do 2 eexists; apply events_since_app; finish_trace ..].
      ask_world w; [|do 2 eexists; apply events_since_app; finish_trace ..].
      ask_world w; do 2 eexists; apply events_since_app; finish_trace.
    + ask_world w; [|do 2 eexists; apply events_since_app; finish_trace ..].
      ask_world w; do 2 eexists; apply events_since_app; finish_trace.
  - unfold setup_mqtt, try_except, bind, perform, log, ret, raise, sys_exit. cbn.
    intros v mro msg Hi Hk Hc. rewrite Hi. cbn. rewrite Hk. cbn. rewrite Hc. cbn.
    ask_world w; [|do 2 eexists; apply events_since_app; finish_trace ..].
    destruct (set (mqtt_username self) && set (mqtt_password self))%bool; cbn.
    + ask_world w; [|do 2 eexists; apply events_since_app; finish_trace ..].
      ask_world w; [|do 2 eexists; apply events_since_app; finish_trace ..].
      ask_world w; do 2 eexists; apply events_since_app; finish_trace.
    + ask_world w; [|do 2 eexists; apply events_since_app; finish_trace ..].
      ask_world w; do 2 eexists; apply events_since_app; finish_trace.
  - unfold setup_mqtt, try_except, bind, perform, log, ret, raise, sys_exit. cbn.
    intros mro msg Hi Hc. rewrite Hi. cbn. rewrite Hc. cbn.
    split; [reflexivity|]. apply events_since_app. reflexivity.
  - unfold setup_mqtt, try_except, bind, perform, log, ret, raise, sys_exit. cbn.
    intros v mro msg Hi Hk Hc. rewrite Hi. cbn. rewrite Hk. cbn. rewrite Hc. cbn.
    split; [reflexivity|]. apply events_since_app. finish_trace.
  - destruct (setup_mqtt_after_client w self s) as (ext & -> & Hext).
    rewrite Exists_app, (build_client_fallback w self s).
    split; [|auto]. intros [H|H]; [exact H|].
    exfalso. apply Exists_exists in H. destruct H as (e & Hin & He).
    rewrite Forall_forall in Hext. rewrite (Hext e Hin) in He. discriminate.
Qed.

Lemma client_constructor_fallback_witness :
  (exists r rest,
     events_since start (snd (setup_mqtt fresh old_paho start)) =
     (ImportCallbackAPIVersion,
      Raises ["ImportError"] "cannot import name 'CallbackAPIVersion'")
       :: (MqttClient "chargepoint-mqtt" false, r) :: rest) /\
  ~ Exists (fun e => plain_constructor e = true)
      (events_since start (snd (setup_mqtt fresh healthy_broker start))).
Proof.
  split.
  - apply (proj1 (client_constructor_fallback old_paho fresh start)
                 ["ImportError"] "cannot import name 'CallbackAPIVersion'");
      reflexivity.
  - intros H.
    apply (proj2 (proj2 (proj2 (proj2
             (client_constructor_fallback healthy_broker fresh start))))) in H.
    destruct H as [(mro & msg & H & _)|(v & mro & msg & _ & H & _)];
      discriminate H.
Defined.
